(** * Face-embedding store of [api.py]: enrolment and recognition

    A shallow embedding of class [FaceRecognitionSystem] of [src/code/api.py]
    (methods [load_database], [save_database], [base64_to_image],
    [detect_main_face], [detect_all_faces], [add_face], [recognize_faces])
    and the properties its specification states about it.

    Modelling conventions.
    - Python [str] is a [string] holding the UTF-8 bytes of the text.
    - numpy floats (distances, box coordinates, confidences) are idealised as
      exact rationals [Q]; rounding and NaN are outside the model.
    - The external collaborators are parameters of the development: the image
      codec ([base64.b64decode], [PIL.Image.open], [cv2.cvtColor]), the face
      detector ([FaceAnalysis.get]) and the vector arithmetic of numpy
      (row subtraction and [numpy.linalg.norm]).
    - An attribute of [self] is a field of the in-memory record; the two files
      written by [save_database] are a second record; a Python exception that
      leaves a method is the outcome [Raised].
    - A write of [save_database] succeeds or fails at the opening of one of
      its two files; a file left half-written, which start-up could not
      read, is outside the model.
    - Calls to [logger] have no effect on the store and are left out. *)

From Stdlib Require Import QArith Qminmax Lqa Lia Ascii.
From stdpp Require Import base list strings sorting pretty.

Local Open Scope string_scope.
Local Open Scope list_scope.

(** ** Python strings *)

Module PyStr.

(** One-byte white space of [str.strip()]: U+0009..U+000D, U+001C..U+001F
    and the space U+0020. *)
Definition ws1 (a : ascii) : bool :=
  let n := N_of_ascii a in
  ((9 <=? n) && (n <=? 13) || (28 <=? n) && (n <=? 32))%N.

(** Two-byte white space: U+0085 (C2 85) and U+00A0 (C2 A0). *)
Definition ws2 (a b : ascii) : bool :=
  let n := N_of_ascii a in
  let m := N_of_ascii b in
  ((n =? 194) && ((m =? 133) || (m =? 160)))%N.

(** Three-byte white space: U+1680 (E1 9A 80), U+2000..U+200A (E2 80 80..8A),
    U+2028, U+2029 (E2 80 A8, A9), U+202F (E2 80 AF), U+205F (E2 81 9F) and
    U+3000 (E3 80 80). *)
Definition ws3 (a b c : ascii) : bool :=
  let n := N_of_ascii a in
  let m := N_of_ascii b in
  let k := N_of_ascii c in
  ((n =? 225) && (m =? 154) && (k =? 128)
   || (n =? 226) && (m =? 128)
        && ((128 <=? k) && (k <=? 138) || (k =? 168) || (k =? 169) || (k =? 175))
   || (n =? 226) && (m =? 129) && (k =? 159)
   || (n =? 227) && (m =? 128) && (k =? 128))%N.

(** [str.lstrip()]: drop white-space characters from the front. *)
Fixpoint lstrip (s : string) : string :=
  match s with
  | EmptyString => s
  | String a r =>
      if ws1 a then lstrip r
      else match r with
           | EmptyString => s
           | String b r2 =>
               if ws2 a b then lstrip r2
               else match r2 with
                    | EmptyString => s
                    | String c r3 => if ws3 a b c then lstrip r3 else s
                    end
           end
  end.

(** The same scan on the reversed byte sequence, where the bytes of a
    character come last byte first. *)
Fixpoint lstrip_rev (s : string) : string :=
  match s with
  | EmptyString => s
  | String a r =>
      if ws1 a then lstrip_rev r
      else match r with
           | EmptyString => s
           | String b r2 =>
               if ws2 b a then lstrip_rev r2
               else match r2 with
                    | EmptyString => s
                    | String c r3 => if ws3 c b a then lstrip_rev r3 else s
                    end
           end
  end.

(** [str.rstrip()] and [str.strip()]. *)
Definition rstrip (s : string) : string := String.rev (lstrip_rev (String.rev s)).
Definition strip (s : string) : string := rstrip (lstrip s).

(** Truth value of a [str]: the empty string is falsy. *)
Definition truthy (s : string) : bool := negb (String.eqb s "").

(** [sep in s] *)
Fixpoint contains (sep s : string) : bool :=
  String.prefix sep s
  || match s with
     | EmptyString => false
     | String _ r => contains sep r
     end.

(** Drop the first [n] bytes. *)
Fixpoint skip (n : nat) (s : string) : string :=
  match n, s with
  | O, _ => s
  | S n', String _ r => skip n' r
  | S _, EmptyString => EmptyString
  end.

(** The text after the first occurrence of [sep], when there is one. *)
Fixpoint after_first (sep s : string) : option string :=
  if String.prefix sep s then Some (skip (String.length sep) s)
  else match s with
       | EmptyString => None
       | String _ r => after_first sep r
       end.

(** The text before the first occurrence of [sep] (all of [s] when
    there is none). *)
Fixpoint before_first (sep s : string) : string :=
  if String.prefix sep s then EmptyString
  else match s with
       | EmptyString => EmptyString
       | String a r => String a (before_first sep r)
       end.

(** [s.split(sep)[1]] for a non-empty [sep]: the piece between the first
    and the second occurrence of [sep]; [None] stands for the [IndexError]
    of a one-element split. *)
Definition split_1 (sep s : string) : option string :=
  before_first sep <$> after_first sep s.

(** A text made of white-space characters only (the empty text included). *)
Inductive whitespace_only : string -> Prop :=
| ws_nil : whitespace_only ""
| ws_one a s : ws1 a = true -> whitespace_only s -> whitespace_only (String a s)
| ws_two a b s :
    ws2 a b = true -> whitespace_only s -> whitespace_only (String a (String b s))
| ws_three a b c s :
    ws3 a b c = true -> whitespace_only s ->
    whitespace_only (String a (String b (String c s))).

End PyStr.

(** ** Exceptions and outcomes *)

(** The Python exceptions that the modelled methods can raise. *)
Inductive exn : Type :=
| ValueError   (* numpy reduction over an empty array *)
| IndexError   (* list index out of range *)
| OSError.     (* a file could not be written *)

(** What a call does: return a value or let an exception escape. *)
Inductive outcome (A : Type) : Type :=
| Returned (a : A)
| Raised (e : exn).
Arguments Returned {A} a.
Arguments Raised {A} e.

(** ** numpy reductions over a one-dimensional array of distances *)

Module Np.

Definition Qltb (x y : Q) : bool := negb (Qle_bool y x).

(** Left-to-right scan keeping the smallest value seen so far; a later
    element replaces the current one only when strictly smaller. *)
Fixpoint min_from (best : Q) (l : list Q) : Q :=
  match l with
  | [] => best
  | x :: r => min_from (if Qltb x best then x else best) r
  end.

(** The same scan keeping the position: the first position of the
    smallest value. [i] is the position of the head of [l]. *)
Fixpoint argmin_from (best : Q) (bi i : nat) (l : list Q) : nat :=
  match l with
  | [] => bi
  | x :: r =>
      if Qltb x best then argmin_from x i (S i) r
      else argmin_from best bi (S i) r
  end.

(** [np.min(a)]: [ValueError] on an empty array. *)
Definition min (a : list Q) : outcome Q :=
  match a with
  | [] => Raised ValueError
  | x :: r => Returned (min_from x r)
  end.

(** [np.argmin(a)]: [ValueError] on an empty array. *)
Definition argmin (a : list Q) : outcome nat :=
  match a with
  | [] => Raised ValueError
  | x :: r => Returned (argmin_from x 0 1 r)
  end.

End Np.

(** ** Python built-ins *)

(** [max(a, b)] on numbers: [b] only when it is strictly greater. *)
Definition py_max (a b : Q) : Q := if Np.Qltb a b then b else a.

(** [sorted(l, key=key, reverse=True)]: a stable sort by decreasing key;
    elements with equal keys keep the order they had in [l]. *)
Fixpoint insert_desc {A : Type} (key : A -> Q) (x : A) (l : list A) : list A :=
  match l with
  | [] => [x]
  | y :: r => if Np.Qltb (key x) (key y) then y :: insert_desc key x r else x :: y :: r
  end.

Fixpoint sorted_reverse {A : Type} (key : A -> Q) (l : list A) : list A :=
  match l with
  | [] => []
  | x :: r => insert_desc key x (sorted_reverse key r)
  end.

(** ** External collaborators *)

(** A face as the detector reports it: the box [bbox = (x1, y1, x2, y2)]
    and the embedding [normed_embedding]. *)
Record Face (V : Type) : Type := mkFace {
  bbox : Q * Q * Q * Q;
  normed_embedding : V
}.
Arguments mkFace {V} bbox normed_embedding.
Arguments bbox {V} f.
Arguments normed_embedding {V} f.

(** What the class uses and does not implement itself. *)
Class Externals : Type := {
  (** decoded pixel data ([numpy] array in BGR order) *)
  image : Type;
  (** an embedding vector ([normed_embedding], a row of [face_embeddings]);
      every value has [EMBEDDING_SIZE] components *)
  vec : Type;
  (** [base64.b64decode], [Image.open] and [cv2.cvtColor] of
      [base64_to_image]; [None] when one of them raises *)
  b64decode_open : string -> option image;
  (** [cv2.cvtColor(image, cv2.COLOR_BGR2RGB)]; [None] when it raises *)
  cvtColor_BGR2RGB : image -> option image;
  (** the faces returned by [self.face_app.get], in the detector's order;
      [None] when it raises *)
  face_app_get : image -> option (list (Face vec));
  (** [row - query] on one row of the matrix *)
  np_sub : vec -> vec -> vec;
  (** [numpy.linalg.norm] of one row *)
  LA_norm : vec -> Q
}.

(** ** The store and the methods of [FaceRecognitionSystem] *)

Definition MAX_FACES_FOR_CHECK : nat := 8.

(** Outcome of one call of [save_database], fixed by the environment:
    - [IoOk]: both files are written;
    - [NpSaveRaises]: [np.save] cannot open [face_embeddings.npy] for writing
      and raises, so that no file is touched;
    - [OpenLabelsRaises]: [face_embeddings.npy] is written, then
      [open(LABELS_FILE, 'wb')] itself raises, so that [labels.pkl] is not
      touched.
    A write that breaks off after its file was opened (and so emptied) is
    not among these outcomes: it would leave a file that [np.load] or
    [pickle.load] rejects, which [Files] does not represent. What is proved
    from a failing write below is therefore proved for a failure at the
    opening of the file. *)
Inductive io_event : Type := IoOk | NpSaveRaises | OpenLabelsRaises.

(** [(value, None)] or [(None, error)] / [([], error)] as returned by the
    two detection methods. *)
Inductive detection (A : Type) : Type :=
| Detected (a : A)
| DetectError (error : string).
Arguments Detected {A} a.
Arguments DetectError {A} error.

(** One entry of the list returned by [recognize_faces]. *)
Record match_result : Type := MatchResult { name : string; confidence : Q }.

Section FaceRecognitionSystem.
Context `{Externals}.

(** The sort key of [detect_main_face]:
    [(x.bbox[2]-x.bbox[0])*(x.bbox[3]-x.bbox[1])]. *)
Definition bbox_area (x : Face vec) : Q :=
  let '(x1, y1, x2, y2) := bbox x in (x2 - x1) * (y2 - y1).

(** The attributes [self.face_embeddings] (one row per record) and
    [self.face_labels]. *)
Record Store : Type := mkStore {
  face_embeddings : list vec;
  face_labels : list string
}.

(** The files [face_embeddings.npy] and [labels.pkl]; [None]: no file. *)
Record Files : Type := mkFiles {
  DB_EMBEDDINGS_FILE : option (list vec);
  LABELS_FILE : option (list string)
}.

(** The object, the files and the outcomes of the coming writes (a write
    past the end of [io] succeeds). *)
Record World : Type := mkWorld {
  self : Store;
  files : Files;
  io : list io_event
}.

(** Stateful computations that may raise. *)
Definition M (A : Type) : Type := World -> World * outcome A.

#[export] Instance M_ret : MRet M := fun A a w => (w, Returned a).

#[export] Instance M_bind : MBind M := fun A B f m w =>
  match m w with
  | (w', Returned a) => f a w'
  | (w', Raised e) => (w', Raised e)
  end.

Definition raise {A : Type} (e : exn) : M A := fun w => (w, Raised e).

(** Lift a pure outcome. *)
Definition lift {A : Type} (o : outcome A) : M A := fun w => (w, o).

(** [try: body except Exception: handler] *)
Definition try_except {A : Type} (body handler : M A) : M A := fun w =>
  match body w with
  | (w', Returned a) => (w', Returned a)
  | (w', Raised _) => handler w'
  end.

Definition get_face_embeddings : M (list vec) :=
  fun w => (w, Returned (face_embeddings (self w))).

Definition get_face_labels : M (list string) :=
  fun w => (w, Returned (face_labels (self w))).

Definition set_face_embeddings (e : list vec) : M unit :=
  fun w => (mkWorld (mkStore e (face_labels (self w))) (files w) (io w), Returned tt).

Definition set_face_labels (l : list string) : M unit :=
  fun w => (mkWorld (mkStore (face_embeddings (self w)) l) (files w) (io w), Returned tt).

(** [l[i]] for a non-negative index. *)
Definition getitem {A : Type} (l : list A) (i : nat) : M A :=
  match l !! i with
  | Some x => mret x
  | None => raise IndexError
  end.

(** [load_database]: both files present, or a fresh empty store. *)
Definition load_database : M unit := fun w =>
  match DB_EMBEDDINGS_FILE (files w), LABELS_FILE (files w) with
  | Some e, Some l => (mkWorld (mkStore e l) (files w) (io w), Returned tt)
  | _, _ => (mkWorld (mkStore [] []) (files w) (io w), Returned tt)
  end.

(** [__init__]: the object built at start-up from the files on disk. *)
Definition init (f : Files) (events : list io_event) : World * outcome unit :=
  load_database (mkWorld (mkStore [] []) f events).

(** [save_database]: [np.save] of the matrix, then the pickle of the labels. *)
Definition save_database : M unit := fun w =>
  let e := face_embeddings (self w) in
  let l := face_labels (self w) in
  match io w with
  | NpSaveRaises :: rest => (mkWorld (self w) (files w) rest, Raised OSError)
  | OpenLabelsRaises :: rest =>
      (mkWorld (self w) (mkFiles (Some e) (LABELS_FILE (files w))) rest, Raised OSError)
  | IoOk :: rest => (mkWorld (self w) (mkFiles (Some e) (Some l)) rest, Returned tt)
  | [] => (mkWorld (self w) (mkFiles (Some e) (Some l)) [], Returned tt)
  end.

(** [base64_to_image] *)
Definition base64_to_image (base64_str : string) : option image :=
  if PyStr.contains "base64," base64_str then
    match PyStr.split_1 "base64," base64_str with
    | Some base64_str' => b64decode_open base64_str'
    | None => None
    end
  else b64decode_open base64_str.

(** [detect_main_face] *)
Definition detect_main_face (image : option image) : detection vec :=
  match image with
  | None => DetectError "Некорректное изображение"
  | Some image =>
      match cvtColor_BGR2RGB image ≫= face_app_get with
      | None => DetectError "Ошибка обработки изображения"
      | Some faces =>
          if (length faces =? 0)%nat then DetectError "Лица не обнаружены"
          else
            match sorted_reverse bbox_area faces with
            | main_face :: _ => Detected (normed_embedding main_face)
            | [] => DetectError "Ошибка обработки изображения"
            end
      end
  end.

(** [detect_all_faces] *)
Definition detect_all_faces (image : option image) : detection (list vec) :=
  match image with
  | None => DetectError "Некорректное изображение"
  | Some image =>
      match cvtColor_BGR2RGB image ≫= face_app_get with
      | None => DetectError "Ошибка обработки изображения"
      | Some faces =>
          if (length faces =? 0)%nat then DetectError "Лица не обнаружены"
          else
            let faces :=
              if (MAX_FACES_FOR_CHECK <? length faces)%nat
              then take MAX_FACES_FOR_CHECK faces else faces in
            Detected (map normed_embedding faces)
      end
  end.

(** [LA.norm(self.face_embeddings - np.array(embedding).reshape(1, -1), axis=1)] *)
Definition row_norms (rows : list vec) (embedding : vec) : list Q :=
  map (fun row => LA_norm (np_sub row embedding)) rows.

(** Lines 142-150 of [add_face]: the repair of a length mismatch. *)
Definition add_face_repair : M unit :=
  labels ← get_face_labels;
  rows ← get_face_embeddings;
  if negb (length labels =? length rows)%nat then
    let min_length := Nat.min (length labels) (length rows) in
    set_face_labels (take min_length labels);;
    set_face_embeddings (take min_length rows);;
    save_database
  else mret tt.

(** Lines 152-164 of [add_face]: the duplicate check. [Some message] when
    the block executes [return message], [None] when control falls through
    to the append. *)
Definition add_face_duplicate (embedding : vec) : M (option string) :=
  rows ← get_face_embeddings;
  let dists := row_norms rows embedding in
  min_dist ← lift (Np.min dists);
  if Np.Qltb min_dist (1 # 2) then
    duplicate_index ← lift (Np.argmin dists);
    labels ← get_face_labels;
    if (duplicate_index <? length labels)%nat then
      duplicate_name ← getitem labels duplicate_index;
      mret (Some ("Человек уже существует в базе как '" +:+ duplicate_name +:+ "'"))
    else mret (Some "Ошибка: несоответствие данных в базе лиц")
  else mret None.

(** Lines 141-164 of [add_face]: both steps, guarded by
    [len(self.face_labels) > 0]. *)
Definition add_face_check (embedding : vec) : M (option string) :=
  labels ← get_face_labels;
  if (0 <? length labels)%nat then
    add_face_repair;;
    add_face_duplicate embedding
  else mret None.

(** Lines 166-173 of [add_face]: append, persist, confirm. *)
Definition add_face_append (embedding : vec) (comment : string) : M string :=
  try_except
    (rows ← get_face_embeddings;
     set_face_embeddings (rows ++ [embedding]);;
     labels ← get_face_labels;
     set_face_labels (labels ++ [comment]);;
     save_database;;
     mret ("Ok! I'll remember that it's " +:+ comment))
    (mret "Невозможно добавить лицо в базу").

(** Lines 141-173 of [add_face]: what is done with the embedding of the
    main face once the label and the image have been accepted. *)
Definition add_face_store (embedding : vec) (comment : string) : M string :=
  early ← add_face_check embedding;
  match early with
  | Some message => mret message
  | None => add_face_append embedding comment
  end.

(** [add_face] *)
Definition add_face (base64_str comment : string) : M string :=
  if negb (PyStr.truthy comment) || String.eqb (PyStr.strip comment) "" then
    mret "Комментарий не может быть пустым"
  else
    let image := base64_to_image base64_str in
    match image with
    | None => mret "Невозможно декодировать изображение из base64"
    | Some _ =>
        match detect_main_face image with
        | DetectError error => mret error
        | Detected embedding => add_face_store embedding comment
        end
    end.

(** The loop of [recognize_faces] over the detected embeddings. *)
Fixpoint recognize_loop (embeddings : list vec) (results : list match_result)
  : M (list match_result) :=
  match embeddings with
  | [] => mret results
  | embedding :: rest =>
      rows ← get_face_embeddings;
      let dists := row_norms rows embedding in
      min_index ← lift (Np.argmin dists);
      min_dist ← getitem dists min_index;
      if Np.Qltb min_dist (7 # 10) then
        let confidence := py_max 0 (100 - min_dist * 100) in
        labels ← get_face_labels;
        name ← getitem labels min_index;
        recognize_loop rest (results ++ [MatchResult name confidence])
      else recognize_loop rest results
  end.

(** [recognize_faces] *)
Definition recognize_faces (base64_str : string)
  : M (list match_result * option string) :=
  let image := base64_to_image base64_str in
  match image with
  | None => mret ([], Some "Невозможно декодировать изображение из base64")
  | Some _ =>
      match detect_all_faces image with
      | DetectError error => mret ([], Some error)
      | Detected embeddings =>
          labels ← get_face_labels;
          if (length labels =? 0)%nat then mret ([], Some "База данных лиц пуста")
          else
            results ← recognize_loop embeddings [];
            mret (results, None)
      end
  end.

End FaceRecognitionSystem.

(** ** Vocabulary of the specification *)

(** [d] is the smallest value of [l] and [i] the first position holding it. *)
Definition first_min (l : list Q) (i : nat) (d : Q) : Prop :=
  l !! i = Some d
  /\ (forall j x, l !! j = Some x -> (d <= x)%Q)
  /\ (forall j x, l !! j = Some x -> (j < i)%nat -> (d < x)%Q).

(** [m] is in [l] and every other element has a strictly smaller key. *)
Definition dominant {A : Type} (key : A -> Q) (l : list A) (m : A) : Prop :=
  m ∈ l /\ forall y, y ∈ l -> y = m \/ (key y < key m)%Q.

Section Vocabulary.
Context `{Externals}.

(** The invariant of the store: as many rows as labels. *)
Definition consistent (s : Store) : Prop :=
  length (face_embeddings s) = length (face_labels s).

(** The same for the two files, when both are there. *)
Definition consistent_files (f : Files) : Prop :=
  match DB_EMBEDDINGS_FILE f, LABELS_FILE f with
  | Some e, Some l => length e = length l
  | _, _ => True
  end.

(** The next call of [save_database] writes both files. *)
Definition next_write_succeeds (w : World) : Prop :=
  match io w with
  | NpSaveRaises :: _ | OpenLabelsRaises :: _ => False
  | _ => True
  end.

(** The truncation of lines 146-148, before it is saved. *)
Definition truncated (w : World) : World :=
  let min_length := Nat.min (length (face_labels (self w)))
                            (length (face_embeddings (self w))) in
  mkWorld (mkStore (take min_length (face_embeddings (self w)))
                   (take min_length (face_labels (self w))))
          (files w) (io w).

(** A label that passes the first test of [add_face]. *)
Definition valid_label (comment : string) : Prop :=
  comment <> "" /\ PyStr.strip comment <> "".

(** The payload decodes and the detector reports the faces [faces]. *)
Definition sees (base64_str : string) (faces : list (Face vec)) : Prop :=
  exists img img',
    base64_to_image base64_str = Some img
    /\ cvtColor_BGR2RGB img = Some img'
    /\ face_app_get img' = Some faces.

(** What one detected face contributes to the result of [recognize_faces]
    on a store [s]: the entry appended by one turn of the loop, if any. *)
Definition face_match (s : Store) (embedding : vec) : option match_result :=
  let dists := row_norms (face_embeddings s) embedding in
  match Np.argmin dists with
  | Returned min_index =>
      match dists !! min_index, face_labels s !! min_index with
      | Some min_dist, Some label =>
          if Np.Qltb min_dist (7 # 10)
          then Some (MatchResult label (py_max 0 (100 - min_dist * 100)))
          else None
      | _, _ => None
      end
  | Raised _ => None
  end.

End Vocabulary.

(** ** The description and safety services and the [/analyze] endpoint

    The vision-language model is a collaborator: the preparation of the
    image file and the chat are parameters, with the text of the exception
    when they raise. The field [processing_time] of the responses is a
    wall-clock measure and is left out: an endpoint is modelled by the
    [result] it returns. *)

(** The double quote, for the quoted words of the two prompts. *)
Definition dq : string := String (ascii_of_nat 34) EmptyString.

(** [DEFAULT_PROMPT] *)
Definition DEFAULT_PROMPT : string :=
  "
    You are a Vision-Language AI assistant with responsible safety protocols.

    Your task is to analyze images and provide detailed, neutral descriptions only if the image is clearly safe and appropriate.

    You MUST NOT analyze, describe, or transcribe any images that contain any of the following with high certainty:
    - Realistic or graphic violence (e.g. visible blood, severe wounds, corpses, mutilation, real body parts).
    - Sexual or explicit content (e.g. pornography, visible nudity, sexual activity).
    - Abuse, torture, rape, or physical harm to real people or animals.
    - Clearly illegal or deeply disturbing content (e.g. executions, terrorism, suicide, racism).

    IMPORTANT:
    Only block the response if you are confident the content falls into the above categories.

    If you are uncertain — for example, if the image is ambiguous, abstract, fictional, artistic, or unclear — proceed with a cautious and neutral description.

    If the content appears clearly unsafe, respond with:
    "
  +:+ dq +:+
  "This image contains potentially unsafe or disturbing content and cannot be described."
  +:+ dq +:+
  "

    You ARE allowed to analyze:
    - Drawings, cartoons, anime, video game or fantasy art.
    - Memes, stylized or abstract art.
    - Fictional violence, stylized gore, or harmless special effects, if not realistic.

    Always distinguish between real and fictional content. Do not assume content is real without strong visual evidence.
    ".

(** [SAFETY_PROMPT] *)
Definition SAFETY_PROMPT : string :=
  "
You are a strict content safety analyzer. Your task is to detect any illegal, prohibited, or dangerous content in the image.

Analyze the image for the following content:
1. Graphic violence, gore, or real blood
2. Nudity, sexual content, or pornography
3. Illegal activities (drugs, weapons, terrorist symbols)
4. Child exploitation content
5. Hate speech symbols (racist, extremist)
6. Non-consensual intimate content
7. Self-harm or suicide content

Rules:
- Respond only with "
  +:+ dq +:+
  "SAFE"
  +:+ dq +:+
  " if image contains NONE of the above
- Respond with "
  +:+ dq +:+
  "UNSAFE: <reason>"
  +:+ dq +:+
  " if ANY prohibited content is detected
- Be specific about the reason when marking as unsafe
- Consider even partial matches and subtle representations
- Better mark as unsafe if uncertain
".

(** [str.lower()] on the letters of ASCII and of the Cyrillic block
    U+0400..U+042F, in UTF-8 (D0 80..D0 AF); the texts it is applied to
    hold no other upper-case letter, and other characters are kept. *)
Fixpoint py_lower (s : string) : string :=
  match s with
  | EmptyString => EmptyString
  | String a r =>
      let n := N_of_ascii a in
      if ((65 <=? n) && (n <=? 90))%N then String (ascii_of_N (n + 32)) (py_lower r)
      else
        match r with
        | EmptyString => String a EmptyString
        | String b r2 =>
            let m := N_of_ascii b in
            if (n =? 208)%N then
              if ((144 <=? m) && (m <=? 159))%N
              then String a (String (ascii_of_N (m + 32)) (py_lower r2))
              else if ((160 <=? m) && (m <=? 175))%N
              then String (ascii_of_N 209) (String (ascii_of_N (m - 32)) (py_lower r2))
              else if ((128 <=? m) && (m <=? 143))%N
              then String (ascii_of_N 209) (String (ascii_of_N (m + 16)) (py_lower r2))
              else String a (py_lower r)
            else String a (py_lower r)
        end
  end.

(** What the services use of the model and of the image libraries. *)
Class VisionLanguageModel : Type := {
  (** [base64.b64decode], [Image.open], [convert] and [save] into a
      temporary file: its path, or the text of the exception *)
  vlm_image_file : string -> string + string;
  (** [tokenizer.from_list_format] and [model.chat] on the file and the
      prompt: the response, or the text of the exception *)
  vlm_chat : string -> string -> string + string
}.

(** The attributes of [app.state] set by [lifespan]: whether [model] is
    set, [vlm_loaded], [face_recognition_loaded], and whether [face_system]
    holds an object. *)
Record AppState : Type := mkApp {
  has_model : bool;
  vlm_loaded : bool;
  face_recognition_loaded : bool;
  face_system : bool
}.

Section Services.
Context `{VisionLanguageModel}.

(** The payload after [if ';base64,' in image_base64: ... split(';base64,')[1]];
    [None] stands for the [IndexError] of a one-element split. *)
Definition vlm_payload (image_base64 : string) : option string :=
  if PyStr.contains ";base64," image_base64
  then PyStr.split_1 ";base64," image_base64
  else Some image_base64.

(** The prompt given to the model by [generate_description]. *)
Definition final_prompt (prompt : string) : string :=
  if PyStr.truthy prompt && PyStr.truthy (PyStr.strip prompt)
  then DEFAULT_PROMPT +:+ " " +:+ PyStr.strip prompt
  else DEFAULT_PROMPT.

(** [generate_description] *)
Definition generate_description (app : AppState) (image_base64 prompt : string)
  : string :=
  if negb (has_model app) || negb (vlm_loaded app) then "VLM модель не загружена"
  else
    match vlm_payload image_base64 with
    | None => "Ошибка генерации описания: " +:+ "list index out of range"
    | Some image_base64 =>
        match vlm_image_file image_base64 with
        | inr e => "Ошибка генерации описания: " +:+ e
        | inl tmp_path =>
            match vlm_chat tmp_path (final_prompt prompt) with
            | inl response => response
            | inr e => "Ошибка генерации описания: " +:+ e
            end
        end
    end.

(** [check_safety] *)
Definition check_safety (app : AppState) (image_base64 : string) : string :=
  if negb (has_model app) || negb (vlm_loaded app)
  then "UNSAFE: Safety model not loaded"
  else
    match vlm_payload image_base64 with
    | None => "UNSAFE: Safety check error - " +:+ "list index out of range"
    | Some image_base64 =>
        match vlm_image_file image_base64 with
        | inr e => "UNSAFE: Safety check error - " +:+ e
        | inl tmp_path =>
            match vlm_chat tmp_path SAFETY_PROMPT with
            | inl response => PyStr.strip response
            | inr e => "UNSAFE: Safety check error - " +:+ e
            end
        end
    end.

Context `{Externals}.

(** [add_face_endpoint]: the [result] of [/add]. *)
Definition add_face_endpoint (app : AppState) (image_base64 comment : string)
  : M string :=
  if negb (face_recognition_loaded app) || negb (face_system app)
  then mret "Система распознавания лиц не инициализирована"
  else add_face image_base64 comment.

(** Lines 410-423 of [analyze_image]: [face_detection_result] and
    [recognized_faces]. *)
Definition analyze_faces (app : AppState) (image_base64 : string)
  : M (string * list string) :=
  if face_recognition_loaded app && face_system app then
    let image := base64_to_image image_base64 in
    match image with
    | None => mret ("Лиц не обнаружено", [])
    | Some _ =>
        match detect_all_faces image with
        | Detected (e :: embeddings) =>
            let face_detection_result :=
              "Обнаружено лиц: " +:+ pretty (length (e :: embeddings)) in
            '(recognized, _) ← recognize_faces image_base64;
            match recognized with
            | [] => mret (face_detection_result, [])
            | _ :: _ => mret (face_detection_result, map name recognized)
            end
        | _ => mret ("Лиц не обнаружено", [])
        end
    end
  else mret ("Лиц не обнаружено", []).

(** [analyze_image]: the [result] of [/analyze]. *)
Definition analyze_image (app : AppState) (image_base64 prompt : string)
  : M string :=
  '(face_detection_result, recognized_faces) ← analyze_faces app image_base64;
  let description := generate_description app image_base64 prompt in
  if PyStr.contains "не обнаружено" (py_lower face_detection_result)
  then mret description
  else
    match recognized_faces with
    | _ :: _ =>
        let identity_msg :=
          "I remember this person! This is "
            +:+ String.concat ", " recognized_faces +:+ ". " in
        mret (identity_msg +:+ description)
    | [] => mret description
    end.

(** The names that [analyze_image] announces: those of the entries of
    [recognize_faces], when the face system is there. *)
Definition announced (app : AppState) (image_base64 : string) (w : World)
  : list string :=
  if face_recognition_loaded app && face_system app then
    match snd (recognize_faces image_base64 w) with
    | Returned (recognized, _) => map name recognized
    | Raised _ => []
    end
  else [].

(** [safety_check]: the [result] of [/safety]. *)
Definition safety_check (app : AppState) (image_base64 : string) : string :=
  check_safety app image_base64.

End Services.

(** ** Further vocabulary: payloads *)

(** A text without comma, as the base64 alphabet and the head
    [data:image/png;] of a data URL are. *)
Fixpoint comma_free (s : string) : bool :=
  match s with
  | EmptyString => true
  | String a r => negb (Ascii.eqb a ",") && comma_free r
  end.

(** ** Further vocabulary: restart and new faces *)

Section Durability.
Context `{Externals}.

(** A restart of the process would find in the files the store that the
    object holds now. *)
Definition persisted (w : World) : Prop :=
  self (fst (init (files w) [])) = self w.

(** No stored row is within the duplicate threshold of [embedding]. *)
Definition new_face (s : Store) (embedding : vec) : Prop :=
  Forall (fun x => (1 # 2 <= x)%Q) (row_norms (face_embeddings s) embedding).

End Durability.

(** ** A concrete instance of the collaborators

    Embeddings are rational vectors, a decoded picture is the list of faces
    a detector finds in it, and a payload is the name of a picture of a
    small album; any other payload fails to decode. The norm is the
    Euclidean one, with the square root rounded down to the denominator
    at hand (exact on the squares used below). *)

Module Demo.

Local Open Scope Q_scope.

Definition Qsqrt (q : Q) : Q := Z.sqrt (Qnum q * QDen q) # Qden q.

Definition sub (u v : list Q) : list Q := zip_with Qminus u v.

Definition norm (v : list Q) : Q :=
  Qsqrt (foldr (fun x acc => x * x + acc) 0 v).

Definition square (side : Q) (v : list Q) : Face (list Q) :=
  mkFace (0, 0, side, side) v.

Definition anna : list Q := [1; 0].
Definition boris : list Q := [0; 1].

Definition album : list (string * list (Face (list Q))) :=
  [ ("anna", [square 20 anna]);
    ("boris", [square 20 boris]);
    ("anna-0.5", [square 20 [7 # 10; 4 # 10]]);
    ("anna-0.69", [square 20 [31 # 100; 0]]);
    ("anna-0.7", [square 20 [3 # 10; 0]]);
    ("small-then-large", [square 10 boris; square 20 anna]);
    ("large-then-small", [square 20 anna; square 10 boris]);
    ("anna-stranger-anna",
     [square 20 anna; square 10 [5; 5]; square 5 [1; 1 # 10]]);
    ("nobody", []);
    ("crowd", [square 1 boris; square 1 boris; square 1 boris; square 1 boris;
               square 1 boris; square 1 boris; square 1 boris; square 1 boris;
               square 9 anna]) ].

Fixpoint lookup_album (key : string) (l : list (string * list (Face (list Q))))
  : option (list (Face (list Q))) :=
  match l with
  | [] => None
  | (k, v) :: r => if String.eqb k key then Some v else lookup_album key r
  end.

#[export] Instance externals : Externals := {|
  image := list (Face (list Q));
  vec := list Q;
  b64decode_open := fun payload => lookup_album payload album;
  cvtColor_BGR2RGB := Some;
  face_app_get := Some;
  np_sub := sub;
  LA_norm := norm
|}.

Definition empty_world : World := mkWorld (mkStore [] []) (mkFiles None None) [].

(** A store holding Anna and Boris, saved. *)
Definition two_people : World :=
  mkWorld (mkStore [anna; boris] ["Anna"; "Boris"])
          (mkFiles (Some [anna; boris]) (Some ["Anna"; "Boris"])) [].

(** Five labels and three rows, as left by an interrupted write. *)
Definition five_three : World :=
  mkWorld (mkStore [anna; boris; [5; 5]] ["Anna"; "Boris"; "Vera"; "Gleb"; "Dina"])
          (mkFiles (Some [anna; boris; [5; 5]])
                   (Some ["Anna"; "Boris"; "Vera"; "Gleb"; "Dina"])) [].

(** No label and one row. *)
Definition rows_only : World :=
  mkWorld (mkStore [boris] []) (mkFiles (Some [boris]) (Some [])) [].

End Demo.

(** Two stores that do not have as many rows as labels. *)

Module DemoBroken.
Import Demo.

(** A label and no row. *)
Definition labels_only : World :=
  mkWorld (mkStore [] ["Vera"]) (mkFiles None None) [].

(** Two rows and the label of the first. *)
Definition unlabelled_row : World :=
  mkWorld (mkStore [boris; anna] ["Boris"]) (mkFiles None None) [].

End DemoBroken.

(** A second album, with two faces of the same size in one picture. *)

Module DemoTwins.

Definition album : list (string * list (Face (list Q))) :=
  [ ("twins", [Demo.square 5 Demo.boris; Demo.square 20 Demo.anna;
               Demo.square 20 Demo.boris]) ].

#[export] Instance externals : Externals := {|
  image := list (Face (list Q));
  vec := list Q;
  b64decode_open := fun payload => Demo.lookup_album payload album;
  cvtColor_BGR2RGB := Some;
  face_app_get := Some;
  np_sub := Demo.sub;
  LA_norm := Demo.norm
|}.

End DemoTwins.

(** A model that can make a file of the pictures of the first album, finds
    every picture safe and describes every picture with the same words. *)

Module DemoVLM.

Definition newline : string := String (ascii_of_nat 10) EmptyString.

#[export] Instance model : VisionLanguageModel := {|
  vlm_image_file := fun body =>
    match Demo.lookup_album body Demo.album with
    | Some _ => inl ("/tmp/" +:+ body +:+ ".jpg")
    | None => inr "Incorrect padding"
    end;
  vlm_chat := fun tmp_path prompt =>
    if String.eqb prompt SAFETY_PROMPT then inl (" SAFE" +:+ newline)
    else inl "A portrait."
|}.

(** Everything loaded, and the model missing. *)
Definition ready : AppState := mkApp true true true true.
Definition no_model : AppState := mkApp false false true true.

End DemoVLM.

(** * Properties *)

(** Unfold the monadic plumbing of the methods. *)
Ltac munfold :=
  unfold add_face_store, add_face_check, add_face_repair, add_face_duplicate,
    add_face_append, try_except, get_face_labels, get_face_embeddings,
    set_face_labels, set_face_embeddings, getitem, lift, raise,
    mbind, mret, M_bind, M_ret.

(** ** Comparisons and the numpy reductions *)

Lemma Qltb_true (x y : Q) : Np.Qltb x y = true <-> (x < y)%Q.
Proof.
  unfold Np.Qltb. rewrite negb_true_iff, <- not_true_iff_false, Qle_bool_iff.
  split; [apply Qnot_le_lt | apply Qlt_not_le].
Qed.

Lemma Qltb_false (x y : Q) : Np.Qltb x y = false <-> (y <= x)%Q.
Proof.
  unfold Np.Qltb. rewrite negb_false_iff. apply Qle_bool_iff.
Qed.

Lemma first_min_singleton (x : Q) : first_min [x] 0 x.
Proof.
  repeat split.
  - intros [|j] y Hy; simpl in Hy; [|by destruct j].
    injection Hy as <-. apply Qle_refl.
  - intros j y _ Hj. lia.
Qed.

(** One step of the scan keeps [first_min] on the scanned prefix. *)
Lemma first_min_snoc (pre : list Q) (bi : nat) (best x : Q) :
  first_min pre bi best ->
  first_min (pre ++ [x])
            (if Np.Qltb x best then length pre else bi)
            (if Np.Qltb x best then x else best).
Proof.
  intros (Hbi & Hall & Hfirst).
  destruct (Np.Qltb x best) eqn:Hlt.
  - apply Qltb_true in Hlt. repeat split.
    + rewrite lookup_app_r by lia. by rewrite Nat.sub_diag.
    + intros j y Hy. apply lookup_app_Some in Hy as [Hy | [_ Hy]].
      * apply Qlt_le_weak. eapply Qlt_le_trans; [exact Hlt | eauto].
      * destruct (j - length pre)%nat; simpl in Hy; [|done].
        injection Hy as <-. apply Qle_refl.
    + intros j y Hy Hj. apply lookup_app_Some in Hy as [Hy | [Hge _]]; [|lia].
      eapply Qlt_le_trans; [exact Hlt | eauto].
  - apply Qltb_false in Hlt. repeat split.
    + by apply lookup_app_l_Some.
    + intros j y Hy. apply lookup_app_Some in Hy as [Hy | [_ Hy]]; [eauto|].
      destruct (j - length pre)%nat; simpl in Hy; [|done].
      by injection Hy as <-.
    + intros j y Hy Hj. apply lookup_app_Some in Hy as [Hy | [Hge _]]; [eauto|].
      apply lookup_lt_Some in Hbi. lia.
Qed.

Lemma scan_first_min (l pre : list Q) (bi : nat) (best : Q) :
  first_min pre bi best ->
  first_min (pre ++ l)
            (Np.argmin_from best bi (length pre) l)
            (Np.min_from best l).
Proof.
  revert pre bi best.
  induction l as [|x r IH]; intros pre bi best Hpre; simpl.
  - by rewrite app_nil_r.
  - apply (first_min_snoc _ _ _ x) in Hpre.
    replace (pre ++ x :: r) with ((pre ++ [x]) ++ r) by by rewrite <- app_assoc.
    replace (S (length pre)) with (length (pre ++ [x]))
      by (rewrite length_app; simpl; lia).
    destruct (Np.Qltb x best); by apply IH.
Qed.

(** [np.argmin] and [np.min] return the first position of the minimum and
    the minimum. *)
Lemma np_argmin_min (l : list Q) :
  l <> [] ->
  exists i d, Np.argmin l = Returned i /\ Np.min l = Returned d /\ first_min l i d.
Proof.
  destruct l as [|x r]; [done|]. intros _.
  exists (Np.argmin_from x 0 1 r), (Np.min_from x r).
  repeat split; try apply (scan_first_min r [x] 0 x (first_min_singleton x)).
Qed.

Lemma first_min_unique (l : list Q) (i j : nat) (d e : Q) :
  first_min l i d -> first_min l j e -> i = j /\ d = e.
Proof.
  intros (Hi & Hall & Hfirst) (Hj & Hall' & Hfirst').
  assert (i = j) as ->.
  { destruct (Nat.lt_trichotomy i j) as [Hlt | [Heq | Hgt]]; [|done|].
    - specialize (Hfirst' _ _ Hi Hlt). specialize (Hall _ _ Hj).
      exfalso. exact (Qlt_not_le _ _ Hfirst' Hall).
    - specialize (Hfirst _ _ Hj Hgt). specialize (Hall' _ _ Hi).
      exfalso. exact (Qlt_not_le _ _ Hfirst Hall'). }
  split; [done | congruence].
Qed.

(** What the two reductions compute is the first minimum. *)
Lemma first_min_computed (l : list Q) (i : nat) (d : Q) :
  Np.argmin l = Returned i -> l !! i = Some d -> first_min l i d.
Proof.
  intros Hargmin Hd.
  destruct (np_argmin_min l) as (i' & d' & Hargmin' & _ & Hmin).
  { by intros ->. }
  rewrite Hargmin in Hargmin'. injection Hargmin' as <-.
  destruct Hmin as (Hd' & Hrest). rewrite Hd in Hd'. injection Hd' as <-.
  by split.
Qed.

Lemma first_min_lt_length (l : list Q) (i : nat) (d : Q) :
  first_min l i d -> (i < length l)%nat.
Proof. intros (Hi & _). by apply lookup_lt_Some in Hi. Qed.

(** ** [sorted(..., reverse=True)] *)

Section Sorted.
Context {A : Type} (key : A -> Q).

Lemma insert_desc_perm (x : A) (l : list A) : insert_desc key x l ≡ₚ x :: l.
Proof.
  induction l as [|y r IH]; simpl; [done|].
  destruct (Np.Qltb (key x) (key y)); [|done].
  rewrite IH. apply perm_swap.
Qed.

Lemma sorted_reverse_perm (l : list A) : sorted_reverse key l ≡ₚ l.
Proof.
  induction l as [|x r IH]; simpl; [done|].
  rewrite insert_desc_perm. by rewrite IH.
Qed.

(** The first element of the sorted list has the largest key. *)
Lemma sorted_reverse_head (l : list A) :
  l <> [] ->
  exists m rest,
    sorted_reverse key l = m :: rest
    /\ m ∈ l
    /\ forall y, y ∈ l -> (key y <= key m)%Q.
Proof.
  induction l as [|x r IH]; [done|]. intros _. simpl.
  destruct r as [|x' r'].
  - exists x, []. repeat split; [by apply elem_of_cons; left|].
    intros y Hy. apply list_elem_of_singleton in Hy as ->. apply Qle_refl.
  - destruct IH as (m & rest & -> & Hin & Hmax); [done|]. simpl.
    destruct (Np.Qltb (key x) (key m)) eqn:Hlt.
    + apply Qltb_true in Hlt. exists m, (insert_desc key x rest).
      repeat split; [by apply elem_of_cons; right|].
      intros y Hy. apply elem_of_cons in Hy as [-> | Hy]; [|by apply Hmax].
      by apply Qlt_le_weak.
    + apply Qltb_false in Hlt. exists x, (m :: rest).
      repeat split; [by apply elem_of_cons; left|].
      intros y Hy. apply elem_of_cons in Hy as [-> | Hy]; [apply Qle_refl|].
      eapply Qle_trans; [by apply Hmax | done].
Qed.

(** The result is in decreasing order of key. *)
Lemma insert_desc_sorted (x : A) (l : list A) :
  Sorted (fun a b => (key b <= key a)%Q) l ->
  Sorted (fun a b => (key b <= key a)%Q) (insert_desc key x l).
Proof.
  induction 1 as [|y r Hs IH Hhd]; simpl; [by repeat constructor|].
  destruct (Np.Qltb (key x) (key y)) eqn:Hlt.
  - constructor; [done|].
    destruct Hhd as [|z r' Hz]; simpl.
    + constructor. apply Qlt_le_weak. by apply Qltb_true.
    + destruct (Np.Qltb (key x) (key z)); constructor; [done|].
      apply Qlt_le_weak. by apply Qltb_true.
  - constructor; [by constructor|]. constructor. by apply Qltb_false.
Qed.

Lemma sorted_reverse_sorted (l : list A) :
  Sorted (fun a b => (key b <= key a)%Q) (sorted_reverse key l).
Proof.
  induction l as [|x r IH]; simpl; [constructor|]. by apply insert_desc_sorted.
Qed.

Lemma dominant_perm (l l' : list A) (m : A) :
  l ≡ₚ l' -> dominant key l m -> dominant key l' m.
Proof.
  intros Hp [Hin Hdom]. split; [by rewrite <- Hp|].
  intros y Hy. apply Hdom. by rewrite Hp.
Qed.

Lemma sorted_reverse_dominant (l : list A) (m : A) :
  dominant key l m -> exists rest, sorted_reverse key l = m :: rest.
Proof.
  intros [Hin Hdom].
  destruct (sorted_reverse_head l) as (h & rest & Hs & Hh & Hmax).
  { intros ->. by apply elem_of_nil in Hin. }
  exists rest. rewrite Hs. f_equal.
  destruct (Hdom h Hh) as [-> | Hlt]; [done|].
  exfalso. exact (Qlt_not_le _ _ Hlt (Hmax m Hin)).
Qed.

End Sorted.

(** ** [str.strip] *)

Lemma ws2_not_ws1 (a b : ascii) : PyStr.ws2 a b = true -> PyStr.ws1 a = false.
Proof.
  unfold PyStr.ws2, PyStr.ws1.
  destruct (N.eqb_spec (N_of_ascii a) 194) as [-> | ]; [done | by simpl].
Qed.

Lemma ws3_not_ws1 (a b c : ascii) : PyStr.ws3 a b c = true -> PyStr.ws1 a = false.
Proof.
  unfold PyStr.ws3, PyStr.ws1.
  destruct (N.eqb_spec (N_of_ascii a) 225) as [-> | ]; [done|].
  destruct (N.eqb_spec (N_of_ascii a) 226) as [-> | ]; [done|].
  destruct (N.eqb_spec (N_of_ascii a) 227) as [-> | ]; [done | by simpl].
Qed.

Lemma ws3_not_ws2 (a b c : ascii) : PyStr.ws3 a b c = true -> PyStr.ws2 a b = false.
Proof.
  unfold PyStr.ws3, PyStr.ws2.
  destruct (N.eqb_spec (N_of_ascii a) 225) as [-> | ]; [done|].
  destruct (N.eqb_spec (N_of_ascii a) 226) as [-> | ]; [done|].
  destruct (N.eqb_spec (N_of_ascii a) 227) as [-> | ]; [done | by simpl].
Qed.

Lemma lstrip_whitespace_only (s : string) :
  PyStr.whitespace_only s -> PyStr.lstrip s = "".
Proof.
  induction 1 as [|a s Ha _ IH|a b s Hab _ IH|a b c s Habc _ IH]; simpl.
  - done.
  - by rewrite Ha.
  - by rewrite (ws2_not_ws1 a b Hab), Hab.
  - by rewrite (ws3_not_ws1 a b c Habc), (ws3_not_ws2 a b c Habc), Habc.
Qed.

(** A label made of white space only strips to the empty text. *)
Lemma strip_whitespace_only (s : string) :
  PyStr.whitespace_only s -> PyStr.strip s = "".
Proof.
  intros Hs. unfold PyStr.strip. by rewrite (lstrip_whitespace_only s Hs).
Qed.

(** ** The methods, step by step *)

Section Methods.
Context `{Externals}.

Lemma row_norms_length (rows : list vec) (embedding : vec) :
  length (row_norms rows embedding) = length rows.
Proof. unfold row_norms. apply length_map. Qed.

Lemma save_database_self (w : World) : self (fst (save_database w)) = self w.
Proof. unfold save_database. by destruct (io w) as [|[] ?]. Qed.

Lemma save_database_ok (w : World) :
  next_write_succeeds w ->
  save_database w =
    (mkWorld (self w)
             (mkFiles (Some (face_embeddings (self w))) (Some (face_labels (self w))))
             (tail (io w)),
     Returned tt).
Proof. unfold next_write_succeeds, save_database. by destruct (io w) as [|[] ?]. Qed.

Lemma truncated_consistent (w : World) : consistent (self (truncated w)).
Proof. unfold consistent, truncated. simpl. rewrite !length_take. lia. Qed.

Lemma add_face_repair_consistent (w : World) :
  consistent (self w) -> add_face_repair w = (w, Returned tt).
Proof.
  unfold consistent. intros Hc. munfold. simpl.
  by rewrite Hc, Nat.eqb_refl.
Qed.

Lemma add_face_repair_mismatch (w : World) :
  ~ consistent (self w) -> add_face_repair w = save_database (truncated w).
Proof.
  unfold consistent. intros Hc. munfold. simpl.
  destruct (Nat.eqb_spec (length (face_labels (self w)))
                         (length (face_embeddings (self w)))) as [Heq | _];
    [by rewrite Heq in Hc|].
  simpl. by destruct (save_database _) as [w' [[]|e]].
Qed.

(** Whatever the write does, the repair leaves as many rows as labels. *)
Lemma add_face_repair_heals (w : World) :
  consistent (self (fst (add_face_repair w))).
Proof.
  destruct (decide (length (face_embeddings (self w)) = length (face_labels (self w))))
    as [Hc | Hc].
  - by rewrite add_face_repair_consistent.
  - rewrite add_face_repair_mismatch by done.
    rewrite save_database_self. apply truncated_consistent.
Qed.

(** The duplicate check on a store with as many rows as labels. *)
Lemma add_face_duplicate_spec (embedding : vec) (w : World) (i : nat) (d : Q) :
  consistent (self w) ->
  first_min (row_norms (face_embeddings (self w)) embedding) i d ->
  exists label,
    face_labels (self w) !! i = Some label
    /\ add_face_duplicate embedding w =
         (w, Returned (if Np.Qltb d (1 # 2)
                       then Some ("Человек уже существует в базе как '" +:+ label +:+ "'")
                       else None)).
Proof.
  intros Hc Hmin.
  pose proof (first_min_lt_length _ _ _ Hmin) as Hlt.
  rewrite row_norms_length, Hc in Hlt.
  destruct (lookup_lt_is_Some_2 _ _ Hlt) as [label Hlabel].
  exists label. split; [done|].
  destruct (np_argmin_min (row_norms (face_embeddings (self w)) embedding))
    as (i' & d' & Hargmin & Hminv & Hmin').
  { intros Hnil. destruct Hmin as (Hi & _). by rewrite Hnil in Hi. }
  destruct (first_min_unique _ _ _ _ _ Hmin' Hmin) as [-> ->].
  munfold. simpl. rewrite Hminv. destruct (Np.Qltb d (1 # 2)); [|done].
  rewrite Hargmin. apply Nat.ltb_lt in Hlt. by rewrite Hlt, Hlabel.
Qed.

Lemma add_face_duplicate_no_rows (embedding : vec) (w : World) :
  face_embeddings (self w) = [] ->
  add_face_duplicate embedding w = (w, Raised ValueError).
Proof. intros Hnil. munfold. simpl. by rewrite Hnil. Qed.

Lemma add_face_append_self (embedding : vec) (comment : string) (w : World) :
  self (fst (add_face_append embedding comment w)) =
  mkStore (face_embeddings (self w) ++ [embedding]) (face_labels (self w) ++ [comment]).
Proof.
  munfold. simpl. unfold save_database. simpl.
  by destruct (io w) as [|[] ?].
Qed.

Lemma add_face_append_returns (embedding : vec) (comment : string) (w : World) :
  exists message, snd (add_face_append embedding comment w) = Returned message.
Proof.
  munfold. simpl. unfold save_database. simpl.
  destruct (io w) as [|[] ?]; simpl; eauto.
Qed.

Lemma add_face_append_ok (embedding : vec) (comment : string) (w : World) :
  next_write_succeeds w ->
  add_face_append embedding comment w =
    (mkWorld
       (mkStore (face_embeddings (self w) ++ [embedding])
                (face_labels (self w) ++ [comment]))
       (mkFiles (Some (face_embeddings (self w) ++ [embedding]))
                (Some (face_labels (self w) ++ [comment])))
       (tail (io w)),
     Returned ("Ok! I'll remember that it's " +:+ comment)).
Proof.
  unfold next_write_succeeds. intros Hio.
  munfold. simpl. unfold save_database. simpl.
  by destruct (io w) as [|[] ?].
Qed.

Lemma valid_label_test (comment : string) :
  valid_label comment ->
  negb (PyStr.truthy comment) || String.eqb (PyStr.strip comment) "" = false.
Proof.
  intros [Hne Hstrip]. unfold PyStr.truthy.
  apply String.eqb_neq in Hne, Hstrip. by rewrite Hne, Hstrip.
Qed.

Lemma blank_label_test (comment : string) :
  PyStr.whitespace_only comment ->
  negb (PyStr.truthy comment) || String.eqb (PyStr.strip comment) "" = true.
Proof.
  intros Hws. rewrite (strip_whitespace_only _ Hws). simpl. apply orb_true_r.
Qed.

Lemma sorted_reverse_nil_inv (faces : list (Face vec)) :
  sorted_reverse bbox_area faces = [] -> faces = [].
Proof.
  intros Hs. apply Permutation_nil_r. rewrite <- Hs.
  symmetry. apply sorted_reverse_perm.
Qed.

Lemma detect_main_face_sees (base64_str : string) (faces rest : list (Face vec))
    (m : Face vec) :
  sees base64_str faces ->
  sorted_reverse bbox_area faces = m :: rest ->
  detect_main_face (base64_to_image base64_str) = Detected (normed_embedding m).
Proof.
  intros (img & img' & -> & Hcvt & Hget) Hs. unfold detect_main_face.
  rewrite Hcvt. simpl. rewrite Hget, Hs.
  destruct faces; [done | by simpl].
Qed.

Lemma detect_all_faces_sees (base64_str : string) (faces : list (Face vec)) :
  sees base64_str faces ->
  faces <> [] ->
  detect_all_faces (base64_to_image base64_str) =
    Detected (map normed_embedding (take MAX_FACES_FOR_CHECK faces)).
Proof.
  intros (img & img' & -> & Hcvt & Hget) Hne. unfold detect_all_faces.
  rewrite Hcvt. simpl. rewrite Hget.
  destruct (Nat.eqb_spec (length faces) 0) as [Hz | _].
  { by destruct faces. }
  destruct (Nat.ltb_spec MAX_FACES_FOR_CHECK (length faces)) as [Hlt | Hle];
    [done|].
  by rewrite (take_ge faces MAX_FACES_FOR_CHECK Hle).
Qed.

Lemma add_face_accepted (base64_str comment : string) (embedding : vec) (w : World) :
  valid_label comment ->
  detect_main_face (base64_to_image base64_str) = Detected embedding ->
  add_face base64_str comment w = add_face_store embedding comment w.
Proof.
  intros Hvalid Hdetect. unfold add_face.
  rewrite (valid_label_test _ Hvalid).
  destruct (base64_to_image base64_str) as [img|]; [|done].
  by rewrite Hdetect.
Qed.

(** No label: the check is skipped. *)
Lemma add_face_store_no_label (embedding : vec) (comment : string) (w : World) :
  face_labels (self w) = [] ->
  add_face_store embedding comment w = add_face_append embedding comment w.
Proof.
  intros Hnil. unfold add_face_store, add_face_check.
  unfold mbind at 1 2, M_bind, get_face_labels. simpl. by rewrite Hnil.
Qed.

(** Labels and as many rows: no repair, then the duplicate check. *)
Lemma add_face_store_consistent (embedding : vec) (comment : string) (w : World)
    (i : nat) (d : Q) :
  consistent (self w) ->
  first_min (row_norms (face_embeddings (self w)) embedding) i d ->
  exists label,
    face_labels (self w) !! i = Some label
    /\ add_face_store embedding comment w =
         if Np.Qltb d (1 # 2)
         then (w, Returned ("Человек уже существует в базе как '" +:+ label +:+ "'"))
         else add_face_append embedding comment w.
Proof.
  intros Hc Hmin.
  destruct (add_face_duplicate_spec embedding w i d Hc Hmin) as (label & Hlabel & Hdup).
  exists label. split; [done|].
  pose proof (add_face_repair_consistent w Hc) as Hrep.
  assert ((0 <? length (face_labels (self w)))%nat = true) as Hpos.
  { apply Nat.ltb_lt. apply lookup_lt_Some in Hlabel. lia. }
  unfold add_face_store, add_face_check.
  unfold mbind at 1 2 3, M_bind, get_face_labels. simpl.
  rewrite Hpos, Hrep, Hdup. by destruct (Np.Qltb d (1 # 2)).
Qed.

(** Labels and a different number of rows: the truncated pair is saved and
    the duplicate check runs on it. *)
Lemma add_face_store_mismatch (embedding : vec) (comment : string) (w : World) :
  face_labels (self w) <> [] ->
  ~ consistent (self w) ->
  add_face_store embedding comment w =
    match save_database (truncated w) with
    | (w', Returned _) =>
        match add_face_duplicate embedding w' with
        | (w'', Returned (Some message)) => (w'', Returned message)
        | (w'', Returned None) => add_face_append embedding comment w''
        | (w'', Raised e) => (w'', Raised e)
        end
    | (w', Raised e) => (w', Raised e)
    end.
Proof.
  intros Hne Hc.
  pose proof (add_face_repair_mismatch w Hc) as Hrep.
  assert ((0 <? length (face_labels (self w)))%nat = true) as Hpos.
  { apply Nat.ltb_lt. destruct (face_labels (self w)); [done | simpl; lia]. }
  unfold add_face_store, add_face_check.
  unfold mbind at 1 2 3, M_bind, get_face_labels. simpl.
  rewrite Hpos, Hrep.
  destruct (save_database (truncated w)) as [w' [[]|e]]; [|done].
  by destruct (add_face_duplicate embedding w') as [w'' [[message|]|e]].
Qed.

Lemma py_max_Qmax (a b : Q) : (py_max a b == Qmax a b)%Q.
Proof.
  unfold py_max. destruct (Np.Qltb a b) eqn:Hlt.
  - apply Qltb_true in Hlt. symmetry. apply Q.max_r. by apply Qlt_le_weak.
  - apply Qltb_false in Hlt. symmetry. by apply Q.max_l.
Qed.

(** One turn of the loop of [recognize_faces] on a store with as many rows
    as labels. *)
Lemma recognize_loop_step (embedding : vec) (w : World) (i : nat) (d : Q) :
  consistent (self w) ->
  first_min (row_norms (face_embeddings (self w)) embedding) i d ->
  exists label,
    face_labels (self w) !! i = Some label
    /\ face_match (self w) embedding =
         (if Np.Qltb d (7 # 10)
          then Some (MatchResult label (py_max 0 (100 - d * 100)))
          else None)
    /\ forall rest results,
         recognize_loop (embedding :: rest) results w =
         recognize_loop rest
           (if Np.Qltb d (7 # 10)
            then results ++ [MatchResult label (py_max 0 (100 - d * 100))]
            else results) w.
Proof.
  intros Hc Hmin.
  pose proof (first_min_lt_length _ _ _ Hmin) as Hlt.
  rewrite row_norms_length, Hc in Hlt.
  destruct (lookup_lt_is_Some_2 _ _ Hlt) as [label Hlabel].
  exists label. split; [done|].
  destruct (np_argmin_min (row_norms (face_embeddings (self w)) embedding))
    as (i' & d' & Hargmin & _ & Hmin').
  { intros Hnil. destruct Hmin as (Hi & _). by rewrite Hnil in Hi. }
  destruct (first_min_unique _ _ _ _ _ Hmin' Hmin) as [-> ->].
  destruct Hmin as (Hd & _).
  split.
  - unfold face_match. rewrite Hargmin, Hd, Hlabel. done.
  - intros rest results. simpl. munfold. simpl.
    rewrite Hargmin, Hd. destruct (Np.Qltb d (7 # 10)); [|done].
    by rewrite Hlabel.
Qed.

Lemma recognize_loop_omap (embeddings : list vec) (results : list match_result)
    (w : World) :
  consistent (self w) ->
  face_embeddings (self w) <> [] ->
  recognize_loop embeddings results w =
    (w, Returned (results ++ omap (face_match (self w)) embeddings)).
Proof.
  intros Hc Hne. revert results.
  induction embeddings as [|embedding rest IH]; intros results.
  - simpl. by rewrite app_nil_r.
  - destruct (np_argmin_min (row_norms (face_embeddings (self w)) embedding))
      as (i & d & _ & _ & Hmin).
    { intros Hnil. apply Hne. apply (f_equal length) in Hnil.
      rewrite row_norms_length in Hnil. by destruct (face_embeddings (self w)). }
    destruct (recognize_loop_step embedding w i d Hc Hmin)
      as (label & _ & Hmatch & Hstep).
    rewrite Hstep, IH. simpl. rewrite Hmatch.
    destruct (Np.Qltb d (7 # 10)); [by rewrite <- app_assoc | done].
Qed.

(** Recognition only reads the store. *)
Lemma recognize_loop_world (embeddings : list vec) (results : list match_result)
    (w : World) :
  fst (recognize_loop embeddings results w) = w.
Proof.
  revert results. induction embeddings as [|embedding rest IH]; intros results; [done|].
  simpl. munfold. simpl.
  destruct (Np.argmin _) as [min_index|]; [|done]. simpl.
  destruct (_ !! min_index) as [min_dist|]; [|done].
  destruct (Np.Qltb min_dist (7 # 10)); [|apply IH].
  destruct (face_labels (self w) !! min_index); [apply IH | done].
Qed.

Lemma recognize_faces_world (base64_str : string) (w : World) :
  fst (recognize_faces base64_str w) = w.
Proof.
  unfold recognize_faces.
  destruct (base64_to_image base64_str); [|done].
  destruct (detect_all_faces _) as [embeddings|]; [|done].
  munfold. simpl. destruct (length (face_labels (self w)) =? 0)%nat; [done|].
  pose proof (recognize_loop_world embeddings [] w) as Hw.
  by destruct (recognize_loop embeddings [] w) as [w' [results|e]].
Qed.

Lemma recognize_faces_sees (base64_str : string) (faces : list (Face vec))
    (w : World) :
  sees base64_str faces ->
  faces <> [] ->
  consistent (self w) ->
  face_labels (self w) <> [] ->
  recognize_faces base64_str w =
    (w, Returned (omap (face_match (self w))
                       (map normed_embedding (take MAX_FACES_FOR_CHECK faces)),
                  None)).
Proof.
  intros Hsees Hfaces Hc Hne. unfold recognize_faces.
  rewrite (detect_all_faces_sees _ _ Hsees Hfaces).
  destruct Hsees as (img & _ & -> & _).
  munfold. simpl.
  destruct (Nat.eqb_spec (length (face_labels (self w))) 0) as [Hz | _].
  { by destruct (face_labels (self w)). }
  rewrite recognize_loop_omap; [done | done |].
  intros Hnil. apply Hne. unfold consistent in Hc. rewrite Hnil in Hc.
  by destruct (face_labels (self w)).
Qed.

End Methods.

(** ** Enrolment *)

Section Enrolment.
Context `{Externals}.

Lemma first_min_exists (rows : list vec) (embedding : vec) :
  rows <> [] -> exists i d, first_min (row_norms rows embedding) i d.
Proof.
  intros Hne.
  destruct (np_argmin_min (row_norms rows embedding)) as (i & d & _ & _ & Hmin);
    [|by eauto].
  intros Hnil. apply Hne. apply (f_equal length) in Hnil.
  rewrite row_norms_length in Hnil. by destruct rows.
Qed.

Lemma consistent_rows_nonempty (s : Store) :
  consistent s -> face_labels s <> [] -> face_embeddings s <> [].
Proof.
  unfold consistent. intros Hc Hne Hnil. rewrite Hnil in Hc.
  by destruct (face_labels s).
Qed.

Lemma appended_consistent (s : Store) (embedding : vec) (comment : string) :
  consistent s ->
  consistent (mkStore (face_embeddings s ++ [embedding]) (face_labels s ++ [comment])).
Proof. unfold consistent. simpl. rewrite !length_app. simpl. lia. Qed.

(** From a store with as many rows as labels, the store part of [add_face]
    returns and leaves as many rows as labels. *)
Lemma add_face_store_invariant (embedding : vec) (comment : string) (w : World) :
  consistent (self w) ->
  consistent (self (fst (add_face_store embedding comment w)))
  /\ exists message, snd (add_face_store embedding comment w) = Returned message.
Proof.
  intros Hc.
  destruct (decide (face_labels (self w) = [])) as [Hnil | Hne].
  - rewrite add_face_store_no_label by done.
    rewrite add_face_append_self.
    split; [by apply appended_consistent | apply add_face_append_returns].
  - destruct (first_min_exists (face_embeddings (self w)) embedding) as (i & d & Hmin).
    { by apply consistent_rows_nonempty. }
    destruct (add_face_store_consistent embedding comment w i d Hc Hmin)
      as (label & _ & ->).
    destruct (Np.Qltb d (1 # 2)); [simpl; eauto|].
    rewrite add_face_append_self.
    split; [by apply appended_consistent | apply add_face_append_returns].
Qed.

(** C1 (amended). With an accepted label and an image with a face:
    whenever the label list is not empty and its length differs from the
    number of rows, [add_face] first cuts both to the shorter length and
    calls [save_database] on that pair, and only then runs the duplicate
    check and the append on what the save left, an exception of the save
    leaving the call; when the write goes through, the cut pair is what the
    files hold; when moreover a row is stored, the call is the enrolment on
    the repaired, saved store and returns a message. When the label list is
    empty nothing is cut: the row and the label are appended. *)
Theorem repair_on_enroll (base64_str comment : string) (embedding : vec) (w : World) :
  valid_label comment ->
  detect_main_face (base64_to_image base64_str) = Detected embedding ->
  (face_labels (self w) <> [] ->
   ~ consistent (self w) ->
   let min_length :=
     Nat.min (length (face_labels (self w))) (length (face_embeddings (self w))) in
   let rows := take min_length (face_embeddings (self w)) in
   let labels := take min_length (face_labels (self w)) in
   let cut := mkWorld (mkStore rows labels) (files w) (io w) in
   let repaired :=
     mkWorld (mkStore rows labels) (mkFiles (Some rows) (Some labels)) (tail (io w)) in
   length rows = min_length
   /\ length labels = min_length
   /\ add_face base64_str comment w =
        match save_database cut with
        | (w', Returned _) =>
            match add_face_duplicate embedding w' with
            | (w'', Returned (Some message)) => (w'', Returned message)
            | (w'', Returned None) => add_face_append embedding comment w''
            | (w'', Raised e) => (w'', Raised e)
            end
        | (w', Raised e) => (w', Raised e)
        end
   /\ self (fst (save_database cut)) = mkStore rows labels
   /\ (next_write_succeeds w -> save_database cut = (repaired, Returned tt))
   /\ (next_write_succeeds w ->
       face_embeddings (self w) <> [] ->
       add_face base64_str comment w = add_face base64_str comment repaired
       /\ exists w' message, add_face base64_str comment w = (w', Returned message)))
  /\ (face_labels (self w) = [] ->
      add_face base64_str comment w = add_face_append embedding comment w
      /\ self (fst (add_face base64_str comment w)) =
           mkStore (face_embeddings (self w) ++ [embedding]) [comment]).
Proof.
  intros Hvalid Hdetect. split.
  - intros Hlabels Hmismatch min_length rows labels cut repaired.
    assert (length rows = min_length) as Hlen_rows.
    { unfold rows. rewrite length_take. lia. }
    assert (length labels = min_length) as Hlen_labels.
    { unfold labels. rewrite length_take. lia. }
    assert (add_face base64_str comment w =
            match save_database cut with
            | (w', Returned _) =>
                match add_face_duplicate embedding w' with
                | (w'', Returned (Some message)) => (w'', Returned message)
                | (w'', Returned None) => add_face_append embedding comment w''
                | (w'', Raised e) => (w'', Raised e)
                end
            | (w', Raised e) => (w', Raised e)
            end) as Hcall.
    { rewrite (add_face_accepted _ _ embedding) by done.
      by rewrite add_face_store_mismatch by done. }
    assert (forall Hio : next_write_succeeds w,
              save_database cut = (repaired, Returned tt)) as Hsave.
    { intros Hio. by rewrite save_database_ok by exact Hio. }
    split; [done|]. split; [done|]. split; [exact Hcall|].
    split; [by rewrite save_database_self|]. split; [exact Hsave|].
    intros Hio Hrows.
    assert (consistent (self repaired)) as Hc.
    { unfold consistent. simpl. congruence. }
    assert (face_embeddings (self repaired) <> []) as Hne.
    { simpl. intros Hnil. rewrite Hnil in Hlen_rows. simpl in Hlen_rows.
      destruct (face_labels (self w)); [done|].
      destruct (face_embeddings (self w)); [done|].
      unfold min_length in Hlen_rows. simpl in Hlen_rows. lia. }
    assert (add_face base64_str comment w = add_face base64_str comment repaired) as Heq.
    { rewrite Hcall, (Hsave Hio), (add_face_accepted _ _ embedding) by done.
      destruct (first_min_exists (face_embeddings (self repaired)) embedding Hne)
        as (i & d & Hmin).
      destruct (add_face_duplicate_spec embedding repaired i d Hc Hmin)
        as (label & Hlabel & ->).
      destruct (add_face_store_consistent embedding comment repaired i d Hc Hmin)
        as (label' & Hlabel' & ->).
      assert (label' = label) as -> by congruence.
      by destruct (Np.Qltb d (1 # 2)). }
    split; [exact Heq|].
    rewrite Heq, (add_face_accepted _ _ embedding) by done.
    destruct (add_face_store_invariant embedding comment repaired Hc)
      as [_ [message Hmessage]].
    destruct (add_face_store embedding comment repaired) as [w' o].
    simpl in Hmessage. subst o. eauto.
  - intros Hnil.
    assert (add_face base64_str comment w = add_face_append embedding comment w) as Heq.
    { rewrite (add_face_accepted _ _ embedding) by done.
      by apply add_face_store_no_label. }
    split; [exact Heq|].
    rewrite Heq, add_face_append_self. by rewrite Hnil.
Qed.

(** C2. Start-up, [add_face] and [recognize_faces] all complete and leave
    as many rows as labels, when the state they start from has as many
    rows as labels. *)
Theorem lengths_agree_after_every_operation :
  (forall (f : Files) (events : list io_event),
      consistent_files f ->
      consistent (self (fst (init f events)))
      /\ snd (init f events) = Returned tt)
  /\ (forall (base64_str comment : string) (w : World),
         consistent (self w) ->
         consistent (self (fst (add_face base64_str comment w)))
         /\ exists message, snd (add_face base64_str comment w) = Returned message)
  /\ (forall (base64_str : string) (w : World),
         consistent (self w) ->
         consistent (self (fst (recognize_faces base64_str w)))
         /\ exists result, snd (recognize_faces base64_str w) = Returned result).
Proof.
  split; [|split].
  - intros f events Hf. unfold init, load_database, consistent_files in *. simpl.
    destruct (DB_EMBEDDINGS_FILE f) as [e|], (LABELS_FILE f) as [l|]; simpl; done.
  - intros base64_str comment w Hc. unfold add_face.
    destruct (_ || _); [simpl; eauto|].
    destruct (base64_to_image base64_str) as [img|]; [|simpl; eauto].
    destruct (detect_main_face (Some img)) as [embedding|error]; [|simpl; eauto].
    by apply add_face_store_invariant.
  - intros base64_str w Hc. rewrite recognize_faces_world. split; [done|].
    unfold recognize_faces.
    destruct (base64_to_image base64_str) as [img|]; [|simpl; eauto].
    destruct (detect_all_faces (Some img)) as [embeddings|error]; [|simpl; eauto].
    munfold. simpl.
    destruct (Nat.eqb_spec (length (face_labels (self w))) 0) as [Hz | Hnz];
      [simpl; eauto|].
    rewrite recognize_loop_omap; [simpl; eauto | done |].
    apply consistent_rows_nonempty; [done|].
    intros Hnil. by rewrite Hnil in Hnz.
Qed.

(** C3. On a non-empty store, with [d] the smallest distance from the
    embedding of the main face to the stored rows and [i] its first position:
    when [d < 0.5] the call rejects, changes nothing and names label [i];
    when [d >= 0.5] the record is appended (and, the write going through,
    saved and confirmed). *)
Theorem dedup_threshold (base64_str comment : string) (embedding : vec) (w : World)
    (i : nat) (d : Q) :
  valid_label comment ->
  detect_main_face (base64_to_image base64_str) = Detected embedding ->
  consistent (self w) ->
  first_min (row_norms (face_embeddings (self w)) embedding) i d ->
  ((d < 1 # 2)%Q ->
   exists existing,
     face_labels (self w) !! i = Some existing
     /\ add_face base64_str comment w =
          (w, Returned ("Человек уже существует в базе как '" +:+ existing +:+ "'")))
  /\ ((1 # 2 <= d)%Q ->
      let appended :=
        mkStore (face_embeddings (self w) ++ [embedding])
                (face_labels (self w) ++ [comment]) in
      self (fst (add_face base64_str comment w)) = appended
      /\ (next_write_succeeds w ->
          add_face base64_str comment w =
            (mkWorld appended
                     (mkFiles (Some (face_embeddings appended))
                              (Some (face_labels appended)))
                     (tail (io w)),
             Returned ("Ok! I'll remember that it's " +:+ comment)))).
Proof.
  intros Hvalid Hdetect Hc Hmin.
  rewrite (add_face_accepted _ _ embedding) by done.
  destruct (add_face_store_consistent embedding comment w i d Hc Hmin)
    as (label & Hlabel & ->).
  split.
  - intros Hlt. apply Qltb_true in Hlt. rewrite Hlt. eauto.
  - intros Hge appended. apply Qltb_false in Hge. rewrite Hge.
    split; [apply add_face_append_self|].
    intros Hio. by apply add_face_append_ok.
Qed.

End Enrolment.

(** ** Recognition *)

Section Recognition.
Context `{Externals}.

Lemma length_omap_le {A B : Type} (f : A -> option B) (l : list A) :
  (length (omap f l) <= length l)%nat.
Proof.
  induction l as [|x l IH]; [done|].
  change (omap f (x :: l)) with (from_option (fun y => y :: omap f l) (omap f l) (f x)).
  destruct (f x); simpl in *; lia.
Qed.

(** C4. For a detected embedding whose smallest distance to the stored rows
    is [d], first reached at row [i]. When [d < 0.7] the loop of
    [recognize_faces] emits exactly one entry for it, with label [i] and
    confidence [max(0, 100 - d*100)] (which is 31 at [d = 0.69]): the loop on
    this embedding alone returns the entries so far followed by that entry,
    [recognize_faces] on an image with this one face returns the list of that
    entry, and on any image it returns a list holding that entry as soon as
    the embedding is among those looked at. When [d >= 0.7], at 0.7 too,
    nothing is emitted for it: the loop returns the entries so far and
    [recognize_faces] on an image with this one face returns the empty list
    without a signal. On every image with a face, [recognize_faces] returns
    what the faces looked at contribute, in their order. *)
Theorem recognition_threshold (embedding : vec) (w : World) (i : nat) (d : Q) :
  consistent (self w) ->
  first_min (row_norms (face_embeddings (self w)) embedding) i d ->
  (forall base64_str faces,
      sees base64_str faces ->
      faces <> [] ->
      recognize_faces base64_str w =
        (w, Returned (omap (face_match (self w))
                           (map normed_embedding (take MAX_FACES_FOR_CHECK faces)),
                      None)))
  /\ ((d < 7 # 10)%Q ->
      exists label conf,
        face_labels (self w) !! i = Some label
        /\ (conf == Qmax 0 (100 - d * 100))%Q
        /\ ((d == 69 # 100)%Q -> (conf == 31)%Q)
        /\ face_match (self w) embedding = Some (MatchResult label conf)
        /\ (forall results,
               recognize_loop [embedding] results w =
                 (w, Returned (results ++ [MatchResult label conf])))
        /\ (forall rest results,
               recognize_loop (embedding :: rest) results w =
               recognize_loop rest (results ++ [MatchResult label conf]) w)
        /\ (forall base64_str f,
               sees base64_str [f] ->
               normed_embedding f = embedding ->
               recognize_faces base64_str w =
                 (w, Returned ([MatchResult label conf], None)))
        /\ (forall base64_str faces,
               sees base64_str faces ->
               embedding ∈ map normed_embedding (take MAX_FACES_FOR_CHECK faces) ->
               exists results,
                 recognize_faces base64_str w = (w, Returned (results, None))
                 /\ MatchResult label conf ∈ results))
  /\ ((7 # 10 <= d)%Q ->
      face_match (self w) embedding = None
      /\ (forall results, recognize_loop [embedding] results w = (w, Returned results))
      /\ (forall rest results,
             recognize_loop (embedding :: rest) results w = recognize_loop rest results w)
      /\ (forall base64_str f,
             sees base64_str [f] ->
             normed_embedding f = embedding ->
             recognize_faces base64_str w = (w, Returned ([], None)))).
Proof.
  intros Hc Hmin.
  destruct (recognize_loop_step embedding w i d Hc Hmin)
    as (label & Hlabel & Hmatch & Hstep).
  assert (face_labels (self w) <> []) as Hne.
  { intros Hnil. by rewrite Hnil in Hlabel. }
  assert (forall base64_str faces,
             sees base64_str faces ->
             faces <> [] ->
             recognize_faces base64_str w =
               (w, Returned (omap (face_match (self w))
                                  (map normed_embedding (take MAX_FACES_FOR_CHECK faces)),
                             None))) as Hrec.
  { intros base64_str faces Hsees Hfaces. by apply recognize_faces_sees. }
  split; [exact Hrec|]. split.
  - intros Hlt. apply Qltb_true in Hlt. rewrite Hlt in Hmatch.
    exists label, (py_max 0 (100 - d * 100)).
    split; [done|]. split; [apply py_max_Qmax|]. split; [|split; [done|]].
    { intros Hd. rewrite py_max_Qmax, Hd. reflexivity. }
    split; [|split; [|split]].
    + intros results. rewrite Hstep, Hlt. reflexivity.
    + intros rest results. by rewrite Hstep, Hlt.
    + intros base64_str f Hsees <-.
      rewrite (Hrec base64_str [f] Hsees) by done.
      simpl. by rewrite Hmatch.
    + intros base64_str faces Hsees Hin.
      assert (faces <> []) as Hfaces.
      { intros ->. by apply elem_of_nil in Hin. }
      eexists. split; [by apply Hrec|].
      apply list_elem_of_omap. eauto.
  - intros Hge. apply Qltb_false in Hge. rewrite Hge in Hmatch.
    split; [done|]. split; [|split].
    + intros results. rewrite Hstep, Hge. reflexivity.
    + intros rest results. by rewrite Hstep, Hge.
    + intros base64_str f Hsees <-.
      rewrite (Hrec base64_str [f] Hsees) by done.
      simpl. by rewrite Hmatch.
Qed.

(** C6. On a non-empty store the result of [recognize_faces] is made from
    the first eight detected faces, in the detector's order: each of them
    contributes its match or nothing. Hence at most eight entries, the same
    result for two pictures that agree on their first eight faces, and two
    matching faces both kept, in their order, whatever their labels. *)
Theorem recognize_first_eight_in_order (base64_str : string)
    (faces : list (Face vec)) (w : World) :
  sees base64_str faces ->
  faces <> [] ->
  consistent (self w) ->
  face_labels (self w) <> [] ->
  let processed := map normed_embedding (take 8 faces) in
  let results := omap (face_match (self w)) processed in
  recognize_faces base64_str w = (w, Returned (results, None))
  /\ (length results <= 8)%nat
  /\ (forall base64_str' faces',
         sees base64_str' faces' ->
         take 8 faces' = take 8 faces ->
         recognize_faces base64_str' w = recognize_faces base64_str w)
  /\ (forall before between after e1 e2 r1 r2,
         processed = before ++ e1 :: between ++ e2 :: after ->
         face_match (self w) e1 = Some r1 ->
         face_match (self w) e2 = Some r2 ->
         results =
           omap (face_match (self w)) before
             ++ r1 :: omap (face_match (self w)) between
             ++ r2 :: omap (face_match (self w)) after).
Proof.
  intros Hsees Hfaces Hc Hne processed results.
  pose proof (recognize_faces_sees base64_str faces w Hsees Hfaces Hc Hne) as Hrec.
  split; [exact Hrec|]. split; [|split].
  - unfold results, processed.
    etransitivity; [apply length_omap_le|].
    rewrite length_map, length_take. lia.
  - intros base64_str' faces' Hsees' Htake.
    assert (faces' <> []) as Hfaces'.
    { intros ->. destruct faces; [done | discriminate]. }
    rewrite Hrec, (recognize_faces_sees base64_str' faces' w Hsees' Hfaces' Hc Hne).
    unfold results, processed, MAX_FACES_FOR_CHECK. by rewrite Htake.
  - intros before between after e1 e2 r1 r2 Hsplit H1 H2.
    unfold results. rewrite Hsplit, omap_app. simpl. rewrite H1.
    rewrite omap_app. simpl. by rewrite H2.
Qed.

(** C7. On a store without labels [recognize_faces], reaching the test of
    the store with a decoded image and at least one detected face, returns
    the empty list with the empty-database signal and leaves the store as it
    was; on any payload it returns an empty list with a signal and raises
    nothing. *)
Theorem recognize_on_empty_store (base64_str : string) (w : World) :
  face_labels (self w) = [] ->
  (exists signal, recognize_faces base64_str w = (w, Returned ([], Some signal)))
  /\ (forall faces,
         sees base64_str faces ->
         faces <> [] ->
         recognize_faces base64_str w = (w, Returned ([], Some "База данных лиц пуста"))).
Proof.
  intros Hnil. split.
  - unfold recognize_faces.
    destruct (base64_to_image base64_str) as [img|]; [|simpl; eauto].
    destruct (detect_all_faces (Some img)) as [embeddings|error]; [|simpl; eauto].
    munfold. simpl. rewrite Hnil. simpl. eauto.
  - intros faces Hsees Hfaces. unfold recognize_faces.
    rewrite (detect_all_faces_sees _ _ Hsees Hfaces).
    destruct Hsees as (img & _ & -> & _).
    munfold. simpl. by rewrite Hnil.
Qed.

End Recognition.

(** ** What [add_face] does with its inputs *)

Section EnrolmentInputs.
Context `{Externals}.

(** [add_face] looks at the payload only through the decoded image and the
    detection made on it. *)
Lemma add_face_same_detection (base64_str base64_str' comment : string) (w : World) :
  base64_to_image base64_str <> None ->
  base64_to_image base64_str' <> None ->
  detect_main_face (base64_to_image base64_str) =
    detect_main_face (base64_to_image base64_str') ->
  add_face base64_str comment w = add_face base64_str' comment w.
Proof.
  intros Hb Hb' Hdetect. unfold add_face.
  destruct (_ || _); [done|].
  destruct (base64_to_image base64_str) as [img|]; [|done].
  destruct (base64_to_image base64_str') as [img'|]; [|done].
  by rewrite Hdetect.
Qed.

Lemma sees_decodes (base64_str : string) (faces : list (Face vec)) :
  sees base64_str faces -> base64_to_image base64_str <> None.
Proof. by intros (img & _ & -> & _). Qed.

(** C5. When several faces are detected, [add_face] works with the
    embedding of a face whose box area is the largest of all, wherever the
    detector listed it; when one face is strictly larger than every other,
    any reordering of the detected faces gives the same call. *)
Theorem dominant_face_rule (base64_str comment : string) (faces : list (Face vec))
    (w : World) :
  sees base64_str faces ->
  faces <> [] ->
  (exists m,
      m ∈ faces
      /\ (forall y, y ∈ faces -> (bbox_area y <= bbox_area m)%Q)
      /\ detect_main_face (base64_to_image base64_str) = Detected (normed_embedding m)
      /\ (valid_label comment ->
          add_face base64_str comment w =
            add_face_store (normed_embedding m) comment w))
  /\ (forall m,
         dominant bbox_area faces m ->
         detect_main_face (base64_to_image base64_str) = Detected (normed_embedding m)
         /\ forall base64_str' faces',
              sees base64_str' faces' ->
              faces' ≡ₚ faces ->
              add_face base64_str' comment w = add_face base64_str comment w).
Proof.
  intros Hsees Hfaces. split.
  - destruct (sorted_reverse_head bbox_area faces Hfaces)
      as (m & rest & Hsorted & Hin & Hmax).
    exists m. repeat split; [done | done | |].
    + by apply (detect_main_face_sees _ faces rest).
    + intros Hvalid. apply add_face_accepted; [done|].
      by apply (detect_main_face_sees _ faces rest).
  - intros m Hdom.
    destruct (sorted_reverse_dominant bbox_area faces m Hdom) as [rest Hsorted].
    pose proof (detect_main_face_sees _ _ _ _ Hsees Hsorted) as Hdetect.
    split; [done|].
    intros base64_str' faces' Hsees' Hperm.
    assert (dominant bbox_area faces' m) as Hdom'
      by by apply (dominant_perm bbox_area faces).
    destruct (sorted_reverse_dominant bbox_area faces' m Hdom') as [rest' Hsorted'].
    apply add_face_same_detection;
      [by apply (sees_decodes _ faces') | by apply (sees_decodes _ faces) |].
    by rewrite Hdetect, (detect_main_face_sees _ _ _ _ Hsees' Hsorted').
Qed.

(** C8. A label that is empty or white space only, and a payload that does
    not decode, are answered with the validation or the decoding message,
    and the object, the files and the pending writes are left as they were. *)
Theorem rejected_inputs_leave_store (base64_str comment : string) (w : World) :
  (PyStr.whitespace_only comment ->
   add_face base64_str comment w = (w, Returned "Комментарий не может быть пустым"))
  /\ (base64_to_image base64_str = None ->
      (valid_label comment ->
       add_face base64_str comment w =
         (w, Returned "Невозможно декодировать изображение из base64"))
      /\ exists message,
           add_face base64_str comment w = (w, Returned message)
           /\ (message = "Комментарий не может быть пустым"
               \/ message = "Невозможно декодировать изображение из base64")).
Proof.
  split.
  - intros Hws. unfold add_face. by rewrite (blank_label_test _ Hws).
  - intros Hdecode. split.
    + intros Hvalid. unfold add_face.
      by rewrite (valid_label_test _ Hvalid), Hdecode.
    + unfold add_face. rewrite Hdecode.
      destruct (_ || _); eauto.
Qed.

Lemma add_face_append_message (embedding : vec) (comment : string) (w : World) :
  snd (add_face_append embedding comment w) =
    Returned ("Ok! I'll remember that it's " +:+ comment)
  \/ snd (add_face_append embedding comment w) =
       Returned "Невозможно добавить лицо в базу".
Proof.
  munfold. simpl. unfold save_database. simpl.
  destruct (io w) as [|[] ?]; simpl; auto.
Qed.

Lemma add_face_duplicate_never_mismatch (embedding : vec) (w : World) :
  consistent (self w) ->
  snd (add_face_duplicate embedding w) <>
    Returned (Some "Ошибка: несоответствие данных в базе лиц").
Proof.
  intros Hc.
  destruct (decide (face_embeddings (self w) = [])) as [Hnil | Hne].
  - by rewrite add_face_duplicate_no_rows.
  - destruct (first_min_exists _ embedding Hne) as (i & d & Hmin).
    destruct (add_face_duplicate_spec embedding w i d Hc Hmin) as (label & _ & ->).
    destruct (Np.Qltb d (1 # 2)); simpl; [|done].
    intros Heq. discriminate Heq.
Qed.

Lemma add_face_check_never_mismatch (embedding : vec) (w : World) :
  snd (add_face_check embedding w) <>
    Returned (Some "Ошибка: несоответствие данных в базе лиц").
Proof.
  unfold add_face_check. unfold mbind at 1 2, M_bind, get_face_labels. simpl.
  destruct (0 <? length (face_labels (self w)))%nat; [|done].
  pose proof (add_face_repair_heals w) as Hc.
  destruct (add_face_repair w) as [w1 [[]|e]]; [|done].
  by apply add_face_duplicate_never_mismatch.
Qed.

(** C9. After the repair step the position returned by [np.argmin] is below
    the number of labels, so [add_face] never answers with the
    data-mismatch message of its fallback branch. *)
Theorem data_mismatch_branch_unreachable (embedding : vec) (w : World) :
  (forall w1 min_dist,
      add_face_repair w = (w1, Returned tt) ->
      Np.min (row_norms (face_embeddings (self w1)) embedding) = Returned min_dist ->
      exists duplicate_index,
        Np.argmin (row_norms (face_embeddings (self w1)) embedding)
          = Returned duplicate_index
        /\ (duplicate_index < length (face_labels (self w1)))%nat)
  /\ snd (add_face_check embedding w) <>
       Returned (Some "Ошибка: несоответствие данных в базе лиц")
  /\ forall base64_str comment,
       snd (add_face base64_str comment w) <>
         Returned "Ошибка: несоответствие данных в базе лиц".
Proof.
  split; [|split].
  - intros w1 min_dist Hrepair Hminv.
    pose proof (add_face_repair_heals w) as Hc. rewrite Hrepair in Hc. simpl in Hc.
    destruct (np_argmin_min (row_norms (face_embeddings (self w1)) embedding))
      as (i & d & Hargmin & _ & Hmin).
    { intros Hnil. by rewrite Hnil in Hminv. }
    exists i. split; [done|].
    apply first_min_lt_length in Hmin.
    by rewrite row_norms_length, Hc in Hmin.
  - apply add_face_check_never_mismatch.
  - intros base64_str comment. unfold add_face.
    destruct (_ || _); [simpl; intros Heq; discriminate Heq|].
    destruct (base64_to_image base64_str) as [img|];
      [|simpl; intros Heq; discriminate Heq].
    unfold detect_main_face.
    destruct (cvtColor_BGR2RGB img ≫= face_app_get) as [faces|];
      [|simpl; intros Heq; discriminate Heq].
    destruct (length faces =? 0)%nat; [simpl; intros Heq; discriminate Heq|].
    destruct (sorted_reverse bbox_area faces) as [|m rest];
      [simpl; intros Heq; discriminate Heq|].
    pose proof (add_face_check_never_mismatch (normed_embedding m) w) as Hcheck.
    unfold add_face_store. unfold mbind at 1, M_bind.
    destruct (add_face_check (normed_embedding m) w) as [w1 [[message|]|e]];
      simpl in *; [congruence | | done].
    destruct (add_face_append_message (normed_embedding m) comment w1) as [-> | ->];
      intros Heq; discriminate Heq.
Qed.

(** C10. With an empty label list [add_face] makes neither the length test
    nor the duplicate test: the row and the label are appended whatever rows
    are stored, and stored rows without labels stay unmatched. *)
Theorem enroll_with_no_label (base64_str comment : string) (embedding : vec)
    (w : World) :
  valid_label comment ->
  detect_main_face (base64_to_image base64_str) = Detected embedding ->
  face_labels (self w) = [] ->
  let appended := mkStore (face_embeddings (self w) ++ [embedding]) [comment] in
  add_face base64_str comment w = add_face_append embedding comment w
  /\ self (fst (add_face base64_str comment w)) = appended
  /\ (exists message, snd (add_face base64_str comment w) = Returned message)
  /\ (next_write_succeeds w ->
      add_face base64_str comment w =
        (mkWorld appended
                 (mkFiles (Some (face_embeddings appended)) (Some (face_labels appended)))
                 (tail (io w)),
         Returned ("Ok! I'll remember that it's " +:+ comment)))
  /\ (face_embeddings (self w) <> [] ->
      ~ consistent (self (fst (add_face base64_str comment w)))).
Proof.
  intros Hvalid Hdetect Hnil appended.
  assert (add_face base64_str comment w = add_face_append embedding comment w) as Heq.
  { rewrite (add_face_accepted _ _ embedding) by done.
    by apply add_face_store_no_label. }
  assert (self (fst (add_face base64_str comment w)) = appended) as Hself.
  { rewrite Heq, add_face_append_self. unfold appended. by rewrite Hnil. }
  split; [done|]. split; [done|]. split; [|split].
  - rewrite Heq. apply add_face_append_returns.
  - intros Hio. rewrite Heq, add_face_append_ok by done.
    unfold appended. simpl. by rewrite Hnil.
  - intros Hrows. rewrite Hself. unfold consistent, appended. simpl.
    rewrite length_app. simpl.
    destruct (face_embeddings (self w)); [done | simpl; lia].
Qed.

End EnrolmentInputs.

(** * The properties on the album *)

Module DemoFacts.
Import Demo.

Ltac demo_sees := eexists _, _; repeat split; reflexivity.
Ltac demo_valid := split; vm_compute; discriminate.
Ltac demo_first_min := apply first_min_computed; reflexivity.

(** C1, at five labels and three rows: both are cut to three and saved,
    and the enrolment of Anna, already stored, is then refused; and at one
    row without a label, where nothing is cut. *)
Lemma repair_on_enroll_witness :
  valid_label "Anna"
  /\ detect_main_face (base64_to_image "anna") = Detected anna
  /\ face_labels (self five_three) <> []
  /\ ~ consistent (self five_three)
  /\ next_write_succeeds five_three
  /\ face_embeddings (self five_three) <> []
  /\ (let repaired :=
        mkWorld (mkStore [anna; boris; [5; 5]%Q] ["Anna"; "Boris"; "Vera"])
                (mkFiles (Some [anna; boris; [5; 5]%Q])
                         (Some ["Anna"; "Boris"; "Vera"])) [] in
      save_database
        (mkWorld (mkStore [anna; boris; [5; 5]%Q] ["Anna"; "Boris"; "Vera"])
                 (files five_three) (io five_three)) = (repaired, Returned tt)
      /\ add_face "anna" "Anna" five_three = add_face "anna" "Anna" repaired
      /\ exists w' message, add_face "anna" "Anna" five_three = (w', Returned message))
  /\ face_labels (self rows_only) = []
  /\ self (fst (add_face "anna" "Anna" rows_only)) = mkStore [boris; anna] ["Anna"].
Proof.
  assert (valid_label "Anna") as H1 by demo_valid.
  assert (detect_main_face (base64_to_image "anna") = Detected anna) as H2
    by reflexivity.
  assert (face_labels (self five_three) <> []) as H3 by discriminate.
  assert (~ consistent (self five_three)) as H4 by (vm_compute; discriminate).
  assert (next_write_succeeds five_three) as H5 by exact I.
  assert (face_embeddings (self five_three) <> []) as H6 by discriminate.
  split; [exact H1|]. split; [exact H2|]. split; [exact H3|]. split; [exact H4|].
  split; [exact H5|]. split; [exact H6|]. split; [|split; [reflexivity|]].
  - pose proof (proj1 (@repair_on_enroll externals "anna" "Anna" anna five_three H1 H2)
                  H3 H4) as (_ & _ & _ & _ & Hsave & Hthen).
    split; [exact (Hsave H5) | exact (Hthen H5 H6)].
  - exact (proj2 (proj2 (@repair_on_enroll externals "anna" "Anna" anna rows_only H1 H2)
                    eq_refl)).
Defined.

(** C1 fails without labels: one stored row and no label, an accepted label
    and image. Nothing is cut to the shorter length, which is zero: the call
    appends, and two rows stand against one label, in the object and in the
    files. *)
Lemma enroll_without_labels_keeps_rows :
  length (face_labels (self rows_only)) <> length (face_embeddings (self rows_only))
  /\ valid_label "Anna"
  /\ sees "anna" [square 20 anna]
  /\ add_face "anna" "Anna" rows_only =
       (mkWorld (mkStore [boris; anna] ["Anna"])
                (mkFiles (Some [boris; anna]) (Some ["Anna"])) [],
        Returned "Ok! I'll remember that it's Anna")
  /\ length (face_embeddings (self (fst (add_face "anna" "Anna" rows_only)))) = 2%nat
  /\ length (face_labels (self (fst (add_face "anna" "Anna" rows_only)))) = 1%nat.
Proof.
  split; [vm_compute; discriminate|].
  split; [demo_valid|].
  split; [demo_sees|].
  repeat split; reflexivity.
Qed.

(** C2, from the saved store of Anna and Boris. *)
Lemma lengths_agree_after_every_operation_witness :
  consistent_files (files two_people)
  /\ consistent (self two_people)
  /\ consistent (self (fst (init (files two_people) [])))
  /\ consistent (self (fst (add_face "anna-0.5" "Anna" two_people)))
  /\ consistent (self (fst (recognize_faces "crowd" two_people))).
Proof.
  assert (consistent_files (files two_people)) as Hf by reflexivity.
  assert (consistent (self two_people)) as Hc by reflexivity.
  destruct lengths_agree_after_every_operation as (Hinit & Hadd & Hrec).
  split; [exact Hf|]. split; [exact Hc|].
  split; [exact (proj1 (Hinit (files two_people) [] Hf))|].
  split; [exact (proj1 (Hadd "anna-0.5" "Anna" two_people Hc))|].
  exact (proj1 (Hrec "crowd" two_people Hc)).
Defined.

(** C3, at distance 0 (refused as Anna) and at distance 0.5 exactly
    (appended). *)
Lemma dedup_threshold_witness :
  (add_face "anna" "Vera" two_people =
     (two_people, Returned "Человек уже существует в базе как 'Anna'"))
  /\ (norm (sub anna [7 # 10; 4 # 10]) == 1 # 2)%Q
  /\ add_face "anna-0.5" "Vera" two_people =
       (mkWorld (mkStore [anna; boris; [7 # 10; 4 # 10]%Q] ["Anna"; "Boris"; "Vera"])
                (mkFiles (Some [anna; boris; [7 # 10; 4 # 10]%Q])
                         (Some ["Anna"; "Boris"; "Vera"])) [],
        Returned "Ok! I'll remember that it's Vera").
Proof.
  assert (valid_label "Vera") as Hv by demo_valid.
  assert (consistent (self two_people)) as Hc by reflexivity.
  split; [|split; [reflexivity|]].
  - assert (first_min (row_norms (face_embeddings (self two_people)) anna)
                      0 (norm (sub anna anna))) as Hmin by demo_first_min.
    destruct (proj1 (@dedup_threshold externals "anna" "Vera" anna two_people 0 _
                       Hv eq_refl Hc Hmin) eq_refl)
      as (existing & Hex & Hadd).
    injection Hex as <-. exact Hadd.
  - assert (first_min (row_norms (face_embeddings (self two_people)) [7 # 10; 4 # 10]%Q)
                      0 (norm (sub anna [7 # 10; 4 # 10]%Q))) as Hmin
      by demo_first_min.
    assert (1 # 2 <= norm (sub anna [7 # 10; 4 # 10]%Q))%Q as Hge
      by (vm_compute; discriminate).
    exact (proj2 (proj2 (@dedup_threshold externals "anna-0.5" "Vera" _ two_people 0 _
                           Hv eq_refl Hc Hmin) Hge) I).
Defined.

(** C4, at distance 0.69 (one entry, Anna with confidence 31) and at
    distance 0.7 (no entry). *)
Lemma recognition_threshold_witness :
  (norm (sub anna [31 # 100; 0]) == 69 # 100)%Q
  /\ (norm (sub anna [3 # 10; 0]) == 7 # 10)%Q
  /\ sees "anna-0.69" [square 20 [31 # 100; 0]%Q]
  /\ sees "anna-0.7" [square 20 [3 # 10; 0]%Q]
  /\ (exists conf,
         (conf == 31)%Q
         /\ recognize_faces "anna-0.69" two_people =
              (two_people, Returned ([MatchResult "Anna" conf], None))
         /\ forall rest results,
              recognize_loop ([31 # 100; 0]%Q :: rest) results two_people =
              recognize_loop rest (results ++ [MatchResult "Anna" conf]) two_people)
  /\ recognize_faces "anna-0.7" two_people = (two_people, Returned ([], None))
  /\ forall rest results,
       recognize_loop ([3 # 10; 0]%Q :: rest) results two_people =
       recognize_loop rest results two_people.
Proof.
  assert (consistent (self two_people)) as Hc by reflexivity.
  assert (sees "anna-0.69" [square 20 [31 # 100; 0]%Q]) as Hs by demo_sees.
  assert (sees "anna-0.7" [square 20 [3 # 10; 0]%Q]) as Hs' by demo_sees.
  split; [reflexivity|]. split; [reflexivity|].
  split; [exact Hs|]. split; [exact Hs'|]. split.
  - assert (first_min (row_norms (face_embeddings (self two_people)) [31 # 100; 0]%Q)
                      0 (norm (sub anna [31 # 100; 0]%Q))) as Hmin
      by demo_first_min.
    destruct (proj1 (proj2 (@recognition_threshold externals _ two_people 0 _ Hc Hmin))
                eq_refl)
      as (label & conf & Hlabel & _ & H31 & _ & _ & Hloop & Hone & _).
    injection Hlabel as <-.
    exists conf. split; [exact (H31 eq_refl)|].
    split; [exact (Hone "anna-0.69" _ Hs eq_refl) | exact Hloop].
  - assert (first_min (row_norms (face_embeddings (self two_people)) [3 # 10; 0]%Q)
                      0 (norm (sub anna [3 # 10; 0]%Q))) as Hmin
      by demo_first_min.
    assert (7 # 10 <= norm (sub anna [3 # 10; 0]%Q))%Q as Hge
      by (vm_compute; discriminate).
    destruct (proj2 (proj2 (@recognition_threshold externals _ two_people 0 _ Hc Hmin))
                Hge)
      as (_ & _ & Hloop & Hone).
    split; [exact (Hone "anna-0.7" _ Hs' eq_refl) | exact Hloop].
Defined.

(** C5, with a face of area 100 and a face of area 400, in both orders:
    the row that is stored is the embedding of the larger face. *)
Lemma dominant_face_rule_witness :
  (bbox_area (square 10 boris) == 100)%Q
  /\ (bbox_area (square 20 anna) == 400)%Q
  /\ sees "small-then-large" [square 10 boris; square 20 anna]
  /\ sees "large-then-small" [square 20 anna; square 10 boris]
  /\ detect_main_face (base64_to_image "small-then-large") = Detected anna
  /\ add_face "large-then-small" "Anna" empty_world =
       add_face "small-then-large" "Anna" empty_world
  /\ face_embeddings (self (fst (add_face "small-then-large" "Anna" empty_world)))
       = [anna].
Proof.
  assert (sees "small-then-large" [square 10 boris; square 20 anna]) as Hs
    by demo_sees.
  assert (sees "large-then-small" [square 20 anna; square 10 boris]) as Hs'
    by demo_sees.
  assert (dominant bbox_area [square 10 boris; square 20 anna] (square 20 anna))
    as Hdom.
  { split; [by apply elem_of_cons; right; apply elem_of_cons; left|].
    intros y Hy. apply elem_of_cons in Hy as [-> | Hy]; [by right|].
    apply elem_of_cons in Hy as [-> | Hy]; [by left|].
    by apply elem_of_nil in Hy. }
  destruct (proj2 (@dominant_face_rule externals "small-then-large" "Anna" _
                     empty_world Hs ltac:(discriminate)) _ Hdom)
    as [Hdetect Horder].
  split; [reflexivity|]. split; [reflexivity|].
  split; [exact Hs|]. split; [exact Hs'|]. split; [exact Hdetect|].
  split; [|reflexivity].
  apply (Horder "large-then-small" _ Hs'). apply perm_swap.
Defined.

(** C6, with nine detected faces, eight of Boris and then one of Anna: the
    ninth is not looked at and the label Boris comes eight times. *)
Lemma recognize_first_eight_in_order_witness :
  sees "crowd"
       [square 1 boris; square 1 boris; square 1 boris; square 1 boris;
        square 1 boris; square 1 boris; square 1 boris; square 1 boris;
        square 9 anna]
  /\ consistent (self two_people)
  /\ map name (fst (default ([], None)
                      (match snd (recognize_faces "crowd" two_people) with
                       | Returned r => Some r
                       | Raised _ => None
                       end)))
     = ["Boris"; "Boris"; "Boris"; "Boris"; "Boris"; "Boris"; "Boris"; "Boris"].
Proof.
  assert (sees "crowd"
            [square 1 boris; square 1 boris; square 1 boris; square 1 boris;
             square 1 boris; square 1 boris; square 1 boris; square 1 boris;
             square 9 anna]) as Hs by demo_sees.
  assert (consistent (self two_people)) as Hc by reflexivity.
  split; [exact Hs|]. split; [exact Hc|].
  rewrite (proj1 (@recognize_first_eight_in_order externals "crowd" _ two_people
                    Hs ltac:(discriminate) Hc ltac:(discriminate))).
  reflexivity.
Defined.

(** C7, on the empty store with a picture of Anna. *)
Lemma recognize_on_empty_store_witness :
  face_labels (self empty_world) = []
  /\ sees "anna" [square 20 anna]
  /\ recognize_faces "anna" empty_world =
       (empty_world, Returned ([], Some "База данных лиц пуста")).
Proof.
  assert (sees "anna" [square 20 anna]) as Hs by demo_sees.
  split; [reflexivity|]. split; [exact Hs|].
  exact (proj2 (@recognize_on_empty_store externals "anna" empty_world eq_refl)
               _ Hs ltac:(discriminate)).
Defined.

(** The tests of [recognize_faces] come in the order of the source: on the
    empty store a payload that does not decode is answered with the decoding
    signal, before the store is looked at. *)
Lemma recognize_empty_store_bad_payload :
  face_labels (self empty_world) = []
  /\ face_embeddings (self empty_world) = []
  /\ recognize_faces "garbage" empty_world =
       (empty_world,
        Returned ([], Some "Невозможно декодировать изображение из base64"))
  /\ snd (recognize_faces "garbage" empty_world) <>
       Returned ([], Some "База данных лиц пуста").
Proof.
  split; [reflexivity|]. split; [reflexivity|]. split; [reflexivity|].
  vm_compute. discriminate.
Qed.

(** C8, with a label of three spaces and with a payload that is not in the
    album. *)
Lemma rejected_inputs_leave_store_witness :
  PyStr.whitespace_only "   "
  /\ valid_label "Anna"
  /\ base64_to_image "garbage" = None
  /\ add_face "anna" "   " two_people =
       (two_people, Returned "Комментарий не может быть пустым")
  /\ add_face "garbage" "Anna" two_people =
       (two_people, Returned "Невозможно декодировать изображение из base64").
Proof.
  assert (PyStr.whitespace_only "   ") as Hws.
  { repeat (apply PyStr.ws_one; [reflexivity|]). apply PyStr.ws_nil. }
  assert (valid_label "Anna") as Hv by demo_valid.
  split; [exact Hws|]. split; [exact Hv|]. split; [reflexivity|]. split.
  - exact (proj1 (@rejected_inputs_leave_store externals "anna" "   " two_people) Hws).
  - exact (proj1 (proj2 (@rejected_inputs_leave_store externals "garbage" "Anna"
                           two_people) eq_refl) Hv).
Defined.

(** C9, after the repair of five labels and three rows. *)
Lemma data_mismatch_branch_unreachable_witness :
  let w1 :=
    mkWorld (mkStore [anna; boris; [5; 5]%Q] ["Anna"; "Boris"; "Vera"])
            (mkFiles (Some [anna; boris; [5; 5]%Q]) (Some ["Anna"; "Boris"; "Vera"]))
            [] in
  add_face_repair five_three = (w1, Returned tt)
  /\ Np.min (row_norms (face_embeddings (self w1)) anna)
       = Returned (norm (sub anna anna))
  /\ exists duplicate_index,
       Np.argmin (row_norms (face_embeddings (self w1)) anna) = Returned duplicate_index
       /\ (duplicate_index < length (face_labels (self w1)))%nat.
Proof.
  intros w1.
  assert (add_face_repair five_three = (w1, Returned tt)) as Hrepair by reflexivity.
  assert (Np.min (row_norms (face_embeddings (self w1)) anna)
          = Returned (norm (sub anna anna))) as Hmin by reflexivity.
  split; [exact Hrepair|]. split; [exact Hmin|].
  exact (proj1 (@data_mismatch_branch_unreachable externals anna five_three)
               w1 _ Hrepair Hmin).
Defined.

(** C10, with one stored row and no label: the record is appended and the
    rows stay one ahead of the labels. *)
Lemma enroll_with_no_label_witness :
  valid_label "Anna"
  /\ detect_main_face (base64_to_image "anna") = Detected anna
  /\ face_labels (self rows_only) = []
  /\ self (fst (add_face "anna" "Anna" rows_only)) = mkStore [boris; anna] ["Anna"]
  /\ ~ consistent (self (fst (add_face "anna" "Anna" rows_only))).
Proof.
  assert (valid_label "Anna") as Hv by demo_valid.
  destruct (@enroll_with_no_label externals "anna" "Anna" anna rows_only
              Hv eq_refl eq_refl)
    as (_ & Hself & _ & _ & Hmismatch).
  split; [exact Hv|]. split; [reflexivity|]. split; [reflexivity|].
  split; [exact Hself|]. apply Hmismatch. discriminate.
Defined.

(** The same enrolment stores the same row under the same label twice when
    it starts without labels: no duplicate test is made. *)
Example enroll_twice_without_labels :
  self (fst (add_face "anna" "Anna"
               (mkWorld (mkStore [anna] []) (mkFiles None None) [])))
  = mkStore [anna; anna] ["Anna"].
Proof. reflexivity. Qed.

(** After the repair of five labels and three rows, start-up from the files
    finds three records. *)
Example load_after_repair :
  self (fst (init (files (fst (add_face "anna" "Anna" five_three))) []))
  = mkStore [anna; boris; [5; 5]%Q] ["Anna"; "Boris"; "Vera"].
Proof. reflexivity. Qed.

(** Labels but no row: both are cut to nothing and saved, then the minimum
    of no distance raises. *)
Example enroll_with_labels_and_no_row :
  add_face "anna" "Anna" (mkWorld (mkStore [] ["Vera"]) (mkFiles None None) [])
  = (mkWorld (mkStore [] []) (mkFiles (Some []) (Some [])) [], Raised ValueError).
Proof. reflexivity. Qed.

(** Three faces, the second unknown: two entries, in the order of detection,
    both for Anna. *)
Example recognize_keeps_order :
  snd (recognize_faces "anna-stranger-anna" two_people)
  = Returned ([MatchResult "Anna" (py_max 0 (100 - norm (sub anna anna) * 100));
               MatchResult "Anna" (py_max 0 (100 - norm (sub anna [1; 1 # 10]%Q) * 100))],
              None).
Proof. reflexivity. Qed.

(** A write that fails after the append: the caller is told, the record
    stays in the object. *)
Example enroll_write_fails :
  add_face "anna" "Anna" (mkWorld (mkStore [] []) (mkFiles None None) [NpSaveRaises])
  = (mkWorld (mkStore [anna] ["Anna"]) (mkFiles None None) [],
     Returned "Невозможно добавить лицо в базу").
Proof. reflexivity. Qed.

Example strip_label : PyStr.strip "  Anna Petrova " = "Anna Petrova".
Proof. reflexivity. Qed.

Example strip_ideographic_space : PyStr.strip " Anna　" = "Anna".
Proof. reflexivity. Qed.

Example split_data_url :
  PyStr.split_1 "base64," "data:image/png;base64,iVBORw0KGgo=" = Some "iVBORw0KGgo=".
Proof. reflexivity. Qed.

End DemoFacts.

(** * Further properties of the store *)

Section StoreExtras.
Context `{Externals}.

(** X1. A write that goes through can be read back: [load_database] after
    [save_database] changes nothing, and a restart from the files gives the
    store that was saved. *)
Theorem save_then_load (w : World) :
  next_write_succeeds w ->
  let saved := fst (save_database w) in
  snd (save_database w) = Returned tt
  /\ self saved = self w
  /\ load_database saved = (saved, Returned tt)
  /\ forall events, self (fst (init (files saved) events)) = self w.
Proof.
  intros Hio saved. unfold saved. rewrite save_database_ok by done.
  destruct w as [[rows labels] f events]. simpl. repeat split.
Qed.

(** X2. [recognize_faces] changes neither the object nor the files, whatever
    the state and the payload, also when it raises. *)
Theorem recognize_faces_read_only (base64_str : string) (w : World) :
  fst (recognize_faces base64_str w) = w
  /\ forall base64_str' comment,
       add_face base64_str' comment (fst (recognize_faces base64_str w)) =
       add_face base64_str' comment w.
Proof.
  pose proof (recognize_faces_world base64_str w) as Hw.
  split; [exact Hw|]. intros base64_str' comment. by rewrite Hw.
Qed.

(** The loop of [recognize_faces] stops at the first embedding that matches
    a row without label: the embeddings before it are compared and pass. *)
Lemma recognize_loop_unlabelled (embeddings : list vec) (w : World)
    (embedding : vec) (i : nat) (d : Q) :
  embedding ∈ embeddings ->
  first_min (row_norms (face_embeddings (self w)) embedding) i d ->
  (d < 7 # 10)%Q ->
  (length (face_labels (self w)) <= i)%nat ->
  forall results, recognize_loop embeddings results w = (w, Raised IndexError).
Proof.
  intros Hin Hmin Hlt Hi.
  assert (face_embeddings (self w) <> []) as Hrows.
  { intros Hnil. destruct Hmin as (Hd & _). by rewrite Hnil in Hd. }
  induction embeddings as [|head rest IH]; intros results.
  { by apply elem_of_nil in Hin. }
  destruct (np_argmin_min (row_norms (face_embeddings (self w)) head))
    as (i0 & d0 & Hargmin & _ & Hmin0).
  { intros Hnil. apply Hrows. apply (f_equal length) in Hnil.
    rewrite row_norms_length in Hnil. by destruct (face_embeddings (self w)). }
  pose proof Hmin0 as (Hd0 & _).
  simpl. munfold. simpl. rewrite Hargmin, Hd0.
  destruct (Np.Qltb d0 (7 # 10)) eqn:Hlt0.
  - destruct (face_labels (self w) !! i0) as [label|] eqn:Hlabel; [|done].
    apply IH. apply elem_of_cons in Hin as [-> | Hin]; [|done].
    destruct (first_min_unique _ _ _ _ _ Hmin0 Hmin) as [-> _].
    apply lookup_lt_Some in Hlabel. lia.
  - apply IH. apply elem_of_cons in Hin as [-> | Hin]; [|done].
    destruct (first_min_unique _ _ _ _ _ Hmin0 Hmin) as [_ ->].
    apply Qltb_true in Hlt. congruence.
Qed.

(** X3. [recognize_faces] does not repair: with labels and no row the
    reduction over no distance raises [ValueError]; with fewer labels than
    rows, as soon as one of the faces looked at (the first eight detected)
    matches a row that has no label, the call raises [IndexError]. *)
Theorem recognize_on_inconsistent_store (base64_str : string) (f : Face vec)
    (rest : list (Face vec)) (w : World) :
  sees base64_str (f :: rest) ->
  face_labels (self w) <> [] ->
  (face_embeddings (self w) = [] ->
   recognize_faces base64_str w = (w, Raised ValueError))
  /\ (forall embedding i d,
         embedding ∈ map normed_embedding (take MAX_FACES_FOR_CHECK (f :: rest)) ->
         first_min (row_norms (face_embeddings (self w)) embedding) i d ->
         (d < 7 # 10)%Q ->
         (length (face_labels (self w)) <= i)%nat ->
         recognize_faces base64_str w = (w, Raised IndexError)).
Proof.
  intros Hsees Hlabels.
  assert ((length (face_labels (self w)) =? 0)%nat = false) as Hlen.
  { apply Nat.eqb_neq. by destruct (face_labels (self w)). }
  pose proof (detect_all_faces_sees _ _ Hsees ltac:(done)) as Hdetect.
  destruct Hsees as (img & _ & Himg & _).
  split.
  - intros Hrows. unfold recognize_faces. rewrite Hdetect, Himg.
    munfold. simpl. rewrite Hlen. munfold. simpl. by rewrite Hrows.
  - intros embedding i d Hin Hmin Hlt Hi.
    pose proof (recognize_loop_unlabelled _ w embedding i d Hin Hmin Hlt Hi []) as Hloop.
    unfold recognize_faces. rewrite Hdetect, Himg.
    unfold mbind, M_bind, get_face_labels. cbn beta iota.
    rewrite Hlen. by rewrite Hloop.
Qed.

(** X4. With labels and no row, [add_face] cuts the labels to nothing,
    saves the empty pair and then raises [ValueError] from the minimum of no
    distance: the labels are gone and nothing is enrolled. *)
Theorem labels_without_rows_are_wiped (base64_str comment : string)
    (embedding : vec) (w : World) :
  valid_label comment ->
  detect_main_face (base64_to_image base64_str) = Detected embedding ->
  face_labels (self w) <> [] ->
  face_embeddings (self w) = [] ->
  next_write_succeeds w ->
  add_face base64_str comment w =
    (mkWorld (mkStore [] []) (mkFiles (Some []) (Some [])) (tail (io w)),
     Raised ValueError).
Proof.
  intros Hvalid Hdetect Hlabels Hrows Hio.
  assert (~ consistent (self w)) as Hc.
  { unfold consistent. rewrite Hrows. by destruct (face_labels (self w)). }
  rewrite (add_face_accepted _ _ embedding) by done.
  rewrite add_face_store_mismatch by done.
  rewrite save_database_ok by exact Hio.
  unfold truncated. rewrite Hrows. simpl. rewrite Nat.min_0_r. simpl.
  by rewrite take_0.
Qed.

Lemma first_min_In (l : list Q) (i : nat) (d : Q) : first_min l i d -> d ∈ l.
Proof. intros (Hd & _). by apply list_elem_of_lookup_2 in Hd. Qed.

(** A face far from every stored row goes to the append. *)
Lemma add_face_store_new_face (embedding : vec) (comment : string) (w : World) :
  consistent (self w) ->
  new_face (self w) embedding ->
  add_face_store embedding comment w = add_face_append embedding comment w.
Proof.
  intros Hc Hnew.
  destruct (decide (face_labels (self w) = [])) as [Hnil | Hne].
  - by apply add_face_store_no_label.
  - destruct (first_min_exists (face_embeddings (self w)) embedding) as (i & d & Hmin).
    { by apply consistent_rows_nonempty. }
    destruct (add_face_store_consistent embedding comment w i d Hc Hmin)
      as (label & _ & ->).
    unfold new_face in Hnew. rewrite Forall_forall in Hnew.
    specialize (Hnew d (first_min_In _ _ _ Hmin)).
    apply Qltb_false in Hnew. by rewrite Hnew.
Qed.

(** With labels and as many rows, the store part of [add_face] is the
    duplicate check followed, when it finds nothing, by the append. *)
Lemma add_face_store_checked (embedding : vec) (comment : string) (w : World) :
  consistent (self w) ->
  face_labels (self w) <> [] ->
  add_face_store embedding comment w =
    match add_face_duplicate embedding w with
    | (w', Returned (Some message)) => (w', Returned message)
    | (w', Returned None) => add_face_append embedding comment w'
    | (w', Raised e) => (w', Raised e)
    end.
Proof.
  intros Hc Hne.
  pose proof (add_face_repair_consistent w Hc) as Hrep.
  assert ((0 <? length (face_labels (self w)))%nat = true) as Hpos.
  { apply Nat.ltb_lt. destruct (face_labels (self w)); [done | simpl; lia]. }
  unfold add_face_store, add_face_check.
  unfold mbind at 1 2 3, M_bind, get_face_labels. simpl.
  rewrite Hpos, Hrep.
  by destruct (add_face_duplicate embedding w) as [w' [[message|]|e]].
Qed.

Lemma row_norms_app (rows rows' : list vec) (embedding : vec) :
  row_norms (rows ++ rows') embedding =
  row_norms rows embedding ++ row_norms rows' embedding.
Proof. unfold row_norms. apply map_app. Qed.

(** X5. After a call of [add_face] with an accepted label and image on a
    store with as many rows as labels, the same image is refused as a
    duplicate under any label, provided the distance of its embedding to
    itself is below the threshold; the refusal changes nothing. This holds
    whether the first call enrolled, was refused itself, or failed to
    write. *)
Theorem second_enrolment_refused (base64_str comment comment' : string)
    (embedding : vec) (w : World) :
  valid_label comment ->
  valid_label comment' ->
  detect_main_face (base64_to_image base64_str) = Detected embedding ->
  (LA_norm (np_sub embedding embedding) < 1 # 2)%Q ->
  consistent (self w) ->
  let w1 := fst (add_face base64_str comment w) in
  exists existing,
    existing ∈ face_labels (self w1)
    /\ add_face base64_str comment' w1 =
         (w1, Returned ("Человек уже существует в базе как '" +:+ existing +:+ "'")).
Proof.
  intros Hvalid Hvalid' Hdetect Hself Hc w1.
  assert (consistent (self w1)) as Hc1.
  { unfold w1. rewrite (add_face_accepted _ _ embedding) by done.
    by apply add_face_store_invariant. }
  assert (exists x, x ∈ row_norms (face_embeddings (self w1)) embedding
                    /\ (x < 1 # 2)%Q) as (x & Hin & Hx).
  { unfold w1. rewrite (add_face_accepted _ _ embedding) by done.
    destruct (decide (face_labels (self w) = [])) as [Hnil | Hne].
    - exists (LA_norm (np_sub embedding embedding)). split; [|done].
      rewrite add_face_store_no_label, add_face_append_self by done. simpl.
      rewrite row_norms_app. apply elem_of_app. right. by apply elem_of_cons; left.
    - destruct (first_min_exists (face_embeddings (self w)) embedding) as (i & d & Hmin).
      { by apply consistent_rows_nonempty. }
      destruct (add_face_store_consistent embedding comment w i d Hc Hmin)
        as (label & _ & ->).
      destruct (Np.Qltb d (1 # 2)) eqn:Hlt.
      + exists d. split; [by apply (first_min_In _ i) | by apply Qltb_true].
      + exists (LA_norm (np_sub embedding embedding)). split; [|done].
        rewrite add_face_append_self. simpl.
        rewrite row_norms_app. apply elem_of_app. right. by apply elem_of_cons; left. }
  destruct (first_min_exists (face_embeddings (self w1)) embedding) as (i & d & Hmin).
  { intros Hnil. rewrite Hnil in Hin. by apply elem_of_nil in Hin. }
  destruct (add_face_store_consistent embedding comment' w1 i d Hc1 Hmin)
    as (existing & Hexisting & Hstore).
  exists existing. split; [by apply list_elem_of_lookup_2 in Hexisting|].
  rewrite (add_face_accepted _ _ embedding), Hstore by done.
  assert (d < 1 # 2)%Q as Hd.
  { destruct Hmin as (_ & Hall & _).
    apply list_elem_of_lookup_1 in Hin as [j Hj].
    eapply Qle_lt_trans; [exact (Hall j x Hj) | exact Hx]. }
  apply Qltb_true in Hd. by rewrite Hd.
Qed.

(** X6. In the enrolment of a new face on a saved store with as many rows
    as labels, let the matrix file be written and the opening of
    [labels.pkl] then raise. The caller is told that the face could not be
    added, the files hold one row more than labels, and a restart loads that
    pair. If the store had labels, the next accepted [add_face] whose write
    goes through cuts that row off and then behaves exactly as on the store
    of before the failed enrolment: the record whose label was not written
    is dropped. If the store was empty, nothing is cut: the next accepted
    [add_face] appends after the row without label, which stays. *)
Theorem unlabelled_row_dropped_after_restart
    (base64_str comment base64_str' comment' : string) (embedding embedding' : vec)
    (w : World) (events : list io_event) :
  valid_label comment ->
  detect_main_face (base64_to_image base64_str) = Detected embedding ->
  valid_label comment' ->
  detect_main_face (base64_to_image base64_str') = Detected embedding' ->
  consistent (self w) ->
  new_face (self w) embedding ->
  files w = mkFiles (Some (face_embeddings (self w))) (Some (face_labels (self w))) ->
  io w = OpenLabelsRaises :: events ->
  let w1 := fst (add_face base64_str comment w) in
  let w2 := fst (init (files w1) events) in
  snd (add_face base64_str comment w) = Returned "Невозможно добавить лицо в базу"
  /\ files w1 = mkFiles (Some (face_embeddings (self w) ++ [embedding]))
                        (Some (face_labels (self w)))
  /\ self w2 = mkStore (face_embeddings (self w) ++ [embedding]) (face_labels (self w))
  /\ (face_labels (self w) <> [] ->
      next_write_succeeds w2 ->
      add_face base64_str' comment' w2 =
        add_face base64_str' comment' (mkWorld (self w) (files w) (tail events)))
  /\ (face_labels (self w) = [] ->
      self (fst (add_face base64_str' comment' w2)) =
        mkStore [embedding; embedding'] [comment']).
Proof.
  intros Hvalid Hdetect Hvalid' Hdetect' Hc Hnew Hfiles Hio w1 w2.
  destruct w as [[rows labels] f io0]. simpl in *. subst f io0.
  assert (add_face base64_str comment
            (mkWorld (mkStore rows labels) (mkFiles (Some rows) (Some labels))
                     (OpenLabelsRaises :: events)) =
          (mkWorld (mkStore (rows ++ [embedding]) (labels ++ [comment]))
                   (mkFiles (Some (rows ++ [embedding])) (Some labels)) events,
           Returned "Невозможно добавить лицо в базу")) as Hadd.
  { rewrite (add_face_accepted _ _ embedding) by done.
    by rewrite add_face_store_new_face. }
  unfold w2, w1. rewrite Hadd. simpl.
  split; [done|]. split; [done|]. split; [done|].
  set (restarted := mkWorld (mkStore (rows ++ [embedding]) labels)
                            (mkFiles (Some (rows ++ [embedding])) (Some labels)) events).
  unfold consistent in Hc. simpl in Hc.
  split.
  - intros Hlabels Hevents.
    set (before := mkWorld (mkStore rows labels) (mkFiles (Some rows) (Some labels))
                           (tail events)).
    assert (~ consistent (self restarted)) as Hmismatch.
    { unfold consistent. simpl. rewrite length_app. simpl. lia. }
    assert (save_database (truncated restarted) = (before, Returned tt)) as Hsave.
    { rewrite save_database_ok by exact Hevents.
      unfold truncated, before. simpl. rewrite length_app. simpl.
      replace (Nat.min (length labels) (length rows + 1)) with (length rows) by lia.
      rewrite take_app_length. rewrite Hc at 1 2. by rewrite firstn_all. }
    rewrite !(add_face_accepted _ _ embedding') by done.
    rewrite add_face_store_mismatch, Hsave by done.
    by rewrite (add_face_store_checked embedding' comment' before).
  - intros ->. destruct rows; [|done].
    rewrite (add_face_accepted _ _ embedding') by done.
    rewrite add_face_store_no_label by done.
    by rewrite add_face_append_self.
Qed.

(** X7. The two detection methods refuse the same images with the same
    message: an image is accepted for enrolment exactly when it is accepted
    for recognition. *)
Theorem detectors_fail_together (img : option image) (error : string) :
  detect_main_face img = DetectError error <->
  detect_all_faces img = DetectError error.
Proof.
  assert (forall message : string,
             @DetectError vec message = DetectError error <->
             @DetectError (list vec) message = DetectError error) as Hsame.
  { intros message. split; intros Heq; injection Heq as Heq; by subst. }
  unfold detect_main_face, detect_all_faces.
  destruct img as [img|]; [|apply Hsame].
  destruct (cvtColor_BGR2RGB img ≫= face_app_get) as [faces|]; [|apply Hsame].
  destruct (Nat.eqb_spec (length faces) 0) as [Hz | Hnz]; [apply Hsame|].
  destruct (sorted_reverse bbox_area faces) as [|m rest] eqn:Hsorted.
  - apply sorted_reverse_nil_inv in Hsorted. by subst faces.
  - by destruct (MAX_FACES_FOR_CHECK <? length faces)%nat.
Qed.

(** Among the faces of largest key the sort puts the first of the list in
    front. *)
Lemma sorted_reverse_first_max {A : Type} (key : A -> Q) (before after : list A)
    (m : A) :
  Forall (fun y => (key y < key m)%Q) before ->
  Forall (fun y => (key y <= key m)%Q) after ->
  exists rest, sorted_reverse key (before ++ m :: after) = m :: rest.
Proof.
  intros Hbefore Hafter.
  induction Hbefore as [|x before Hx _ IH]; simpl.
  - destruct after as [|y after']; [by exists []|].
    destruct (sorted_reverse_head key (y :: after')) as (h & rest & -> & Hin & _);
      [done|].
    rewrite Forall_forall in Hafter. specialize (Hafter h Hin).
    apply Qltb_false in Hafter. simpl. rewrite Hafter. eauto.
  - destruct IH as [rest ->]. simpl.
    apply Qltb_true in Hx. rewrite Hx. eauto.
Qed.

(** X10. When several faces share the largest box area, [detect_main_face]
    returns the embedding of the one the detector reported first. *)
Theorem first_of_the_largest_faces (base64_str : string)
    (before after : list (Face vec)) (m : Face vec) :
  sees base64_str (before ++ m :: after) ->
  Forall (fun y => (bbox_area y < bbox_area m)%Q) before ->
  Forall (fun y => (bbox_area y <= bbox_area m)%Q) after ->
  detect_main_face (base64_to_image base64_str) = Detected (normed_embedding m).
Proof.
  intros Hsees Hbefore Hafter.
  destruct (sorted_reverse_first_max bbox_area before after m Hbefore Hafter)
    as [rest Hsorted].
  exact (detect_main_face_sees _ _ _ _ Hsees Hsorted).
Qed.

(** X11. On a store with as many rows as labels [add_face] never alters or
    reorders what is stored: the store comes back as it was, or with one
    record more at the end, labelled with the comment as given. *)
Theorem add_face_keeps_records (base64_str comment : string) (w : World) :
  consistent (self w) ->
  self (fst (add_face base64_str comment w)) = self w
  \/ exists embedding,
       detect_main_face (base64_to_image base64_str) = Detected embedding
       /\ self (fst (add_face base64_str comment w)) =
            mkStore (face_embeddings (self w) ++ [embedding])
                    (face_labels (self w) ++ [comment]).
Proof.
  intros Hc. unfold add_face.
  destruct (_ || _); [by left|].
  destruct (base64_to_image base64_str) as [img|]; [|by left].
  destruct (detect_main_face (Some img)) as [embedding|error]; [|by left].
  destruct (decide (face_labels (self w) = [])) as [Hnil | Hne].
  - right. exists embedding. split; [done|].
    by rewrite add_face_store_no_label, add_face_append_self.
  - destruct (first_min_exists (face_embeddings (self w)) embedding) as (i & d & Hmin).
    { by apply consistent_rows_nonempty. }
    destruct (add_face_store_consistent embedding comment w i d Hc Hmin)
      as (label & _ & ->).
    destruct (Np.Qltb d (1 # 2)); [by left|].
    right. exists embedding. split; [done|]. apply add_face_append_self.
Qed.

(** X12. While writes go through the files follow the object: if a restart
    would find the present store, it still does after any call of
    [add_face]. *)
Theorem enrolment_is_durable (base64_str comment : string) (w : World) :
  consistent (self w) ->
  persisted w ->
  next_write_succeeds w ->
  persisted (fst (add_face base64_str comment w)).
Proof.
  intros Hc Hp Hio. unfold add_face.
  destruct (_ || _); [done|].
  destruct (base64_to_image base64_str) as [img|]; [|done].
  destruct (detect_main_face (Some img)) as [embedding|error]; [|done].
  destruct (decide (face_labels (self w) = [])) as [Hnil | Hne].
  - by rewrite add_face_store_no_label, add_face_append_ok.
  - destruct (first_min_exists (face_embeddings (self w)) embedding) as (i & d & Hmin).
    { by apply consistent_rows_nonempty. }
    destruct (add_face_store_consistent embedding comment w i d Hc Hmin)
      as (label & _ & ->).
    destruct (Np.Qltb d (1 # 2)); [done|].
    by rewrite add_face_append_ok.
Qed.

(** What start-up loads does not depend on the writes to come. *)
Lemma init_self (f : Files) (events : list io_event) :
  self (fst (init f events)) = self (fst (init f [])).
Proof.
  unfold init, load_database. simpl.
  by destruct (DB_EMBEDDINGS_FILE f), (LABELS_FILE f).
Qed.

(** X13. In the enrolment of a new face on a saved store with as many rows
    as labels, let [np.save] raise at the opening of its file, before any
    file is touched. The new record stays in the object, the caller is told
    that the face could not be added, and the files are as they were: the
    object is ahead of the files, and a restart loads the store without the
    record. *)
Theorem failed_write_is_lost_on_restart (base64_str comment : string)
    (embedding : vec) (w : World) (events : list io_event) :
  valid_label comment ->
  detect_main_face (base64_to_image base64_str) = Detected embedding ->
  consistent (self w) ->
  new_face (self w) embedding ->
  persisted w ->
  io w = NpSaveRaises :: events ->
  let w1 := fst (add_face base64_str comment w) in
  add_face base64_str comment w =
    (mkWorld (mkStore (face_embeddings (self w) ++ [embedding])
                      (face_labels (self w) ++ [comment]))
             (files w) events,
     Returned "Невозможно добавить лицо в базу")
  /\ self (fst (init (files w1) events)) = self w
  /\ ~ persisted w1.
Proof.
  intros Hvalid Hdetect Hc Hnew Hp Hio w1.
  assert (add_face base64_str comment w =
          (mkWorld (mkStore (face_embeddings (self w) ++ [embedding])
                            (face_labels (self w) ++ [comment]))
                   (files w) events,
           Returned "Невозможно добавить лицо в базу")) as Hadd.
  { rewrite (add_face_accepted _ _ embedding) by done.
    rewrite add_face_store_new_face by done.
    munfold. simpl. unfold save_database. simpl. by rewrite Hio. }
  unfold w1. rewrite Hadd. simpl. split; [done|].
  unfold persisted in *. simpl. split; [by rewrite (init_self (files w) events)|].
  rewrite Hp. intros Heq. apply (f_equal (fun s => length (face_labels s))) in Heq.
  simpl in Heq. rewrite length_app in Heq. simpl in Heq. lia.
Qed.

End StoreExtras.

(** * Further properties of the texts *)

Lemma append_cons (a : ascii) (s t : string) : String a s +:+ t = String a (s +:+ t).
Proof. reflexivity. Qed.

Lemma append_nil_l (t : string) : "" +:+ t = t.
Proof. reflexivity. Qed.

Lemma append_nil_r (s : string) : s +:+ "" = s.
Proof. induction s as [|a s IH]; [done|]. by rewrite append_cons, IH. Qed.

Lemma append_assoc (s t u : string) : (s +:+ t) +:+ u = s +:+ (t +:+ u).
Proof. induction s as [|a s IH]; [done|]. by rewrite !append_cons, IH. Qed.

Lemma rev_app_append (s acc : string) :
  String.rev_app s acc = String.rev_app s "" +:+ acc.
Proof.
  revert acc. induction s as [|a s IH]; intros acc; [done|]. simpl.
  rewrite (IH (String a acc)), (IH (String a "")), append_assoc.
  by rewrite append_cons, append_nil_l.
Qed.

Lemma rev_cons (a : ascii) (s : string) :
  String.rev (String a s) = String.rev s +:+ String a "".
Proof. unfold String.rev. simpl. apply rev_app_append. Qed.

Lemma append_eq_nil (s t : string) : s +:+ t = "" -> s = "" /\ t = "".
Proof. destruct s; [done|]. rewrite append_cons. discriminate. Qed.

Lemma rev_eq_nil (s : string) : String.rev s = "" -> s = "".
Proof.
  destruct s as [|a s]; [done|]. rewrite rev_cons.
  intros Heq. apply append_eq_nil in Heq as [_ Heq]. discriminate.
Qed.

Lemma whitespace_only_app (p q : string) :
  PyStr.whitespace_only p -> PyStr.whitespace_only q -> PyStr.whitespace_only (p +:+ q).
Proof.
  intros Hp Hq. induction Hp as [|a s Ha _ IH|a b s Hab _ IH|a b c s Habc _ IH].
  - done.
  - rewrite append_cons. by apply PyStr.ws_one.
  - rewrite !append_cons. by apply PyStr.ws_two.
  - rewrite !append_cons. by apply PyStr.ws_three.
Qed.

(** [lstrip] takes a white-space prefix off. *)
Lemma lstrip_prefix (n : nat) (s : string) :
  (String.length s <= n)%nat ->
  exists p, PyStr.whitespace_only p /\ s = p +:+ PyStr.lstrip s.
Proof.
  revert s. induction n as [|n IH]; intros s Hlen.
  - destruct s; [|simpl in Hlen; lia]. exists "". split; [constructor | done].
  - destruct s as [|a r]; [exists ""; split; [constructor | done]|].
    simpl in Hlen. simpl.
    destruct (PyStr.ws1 a) eqn:Ha.
    { destruct (IH r) as (p & Hp & Hr); [lia|].
      exists (String a p). split; [by constructor|].
      by rewrite append_cons, <- Hr. }
    destruct r as [|b r2]; [exists ""; split; [constructor | done]|].
    simpl in Hlen.
    destruct (PyStr.ws2 a b) eqn:Hab.
    { destruct (IH r2) as (p & Hp & Hr); [lia|].
      exists (String a (String b p)). split; [by constructor|].
      by rewrite !append_cons, <- Hr. }
    destruct r2 as [|c r3]; [exists ""; split; [constructor | done]|].
    simpl in Hlen.
    destruct (PyStr.ws3 a b c) eqn:Habc.
    { destruct (IH r3) as (p & Hp & Hr); [lia|].
      exists (String a (String b (String c p))). split; [by constructor|].
      by rewrite !append_cons, <- Hr. }
    exists "". split; [constructor | done].
Qed.

(** A reversed text that [lstrip_rev] consumes is white space. *)
Lemma lstrip_rev_nil (n : nat) (r : string) :
  (String.length r <= n)%nat ->
  PyStr.lstrip_rev r = "" -> PyStr.whitespace_only (String.rev r).
Proof.
  revert r. induction n as [|n IH]; intros r Hlen Hstrip.
  - destruct r; [constructor | simpl in Hlen; lia].
  - destruct r as [|a r1]; [constructor|].
    simpl in Hlen, Hstrip.
    destruct (PyStr.ws1 a) eqn:Ha.
    { rewrite rev_cons. apply whitespace_only_app; [apply IH; [lia | done]|].
      apply PyStr.ws_one; [done | constructor]. }
    destruct r1 as [|b r2]; [done|]. simpl in Hlen.
    destruct (PyStr.ws2 b a) eqn:Hab.
    { rewrite !rev_cons, append_assoc.
      apply whitespace_only_app; [apply IH; [lia | done]|].
      rewrite append_cons, append_nil_l.
      apply PyStr.ws_two; [done | constructor]. }
    destruct r2 as [|c r3]; [done|]. simpl in Hlen.
    destruct (PyStr.ws3 c b a) eqn:Habc; [|done].
    rewrite !rev_cons, !append_assoc.
    apply whitespace_only_app; [apply IH; [lia | done]|].
    rewrite !append_cons, !append_nil_l.
    apply PyStr.ws_three; [done | constructor].
Qed.

Lemma rev_involutive (s : string) : String.rev (String.rev s) = s.
Proof.
  assert (forall s acc, String.rev (String.rev_app s acc) = String.rev_app acc s) as Hgen.
  { clear s. induction s as [|a s IH]; intros acc; [done|]. simpl. by rewrite IH. }
  unfold String.rev at 2. by rewrite Hgen.
Qed.

(** Exactly the texts made of white space strip to the empty text. *)
Lemma strip_nil_iff (s : string) : PyStr.strip s = "" <-> PyStr.whitespace_only s.
Proof.
  split; [|apply strip_whitespace_only].
  unfold PyStr.strip, PyStr.rstrip. intros Hstrip.
  apply rev_eq_nil in Hstrip.
  apply (lstrip_rev_nil _ _ (le_n _)) in Hstrip.
  rewrite rev_involutive in Hstrip.
  destruct (lstrip_prefix _ s (le_n _)) as (p & Hp & Hs).
  rewrite Hs. by apply whitespace_only_app.
Qed.

Lemma prefix_cons (a b : ascii) (s t : string) :
  String.prefix (String a s) (String b t) =
  if ascii_dec a b then String.prefix s t else false.
Proof. reflexivity. Qed.

(** The marker does not start inside a text without comma that comes
    before it. *)
Lemma prefix_marker_after_text (p t : string) :
  p <> "" ->
  comma_free p = true ->
  String.prefix "base64," (p +:+ "base64," +:+ t) = false.
Proof.
  intros Hne Hfree.
  destruct p as [|a1 p]; [done|]. clear Hne.
  repeat
    (rewrite append_cons, prefix_cons;
     destruct (ascii_dec _ _) as [<-|]; [|done];
     destruct p as [|? p];
     [rewrite append_nil_l, append_cons, prefix_cons; by destruct (ascii_dec _ _)|]).
  rewrite append_cons, prefix_cons.
  destruct (ascii_dec _ _) as [<-|]; [|done].
  by simpl in Hfree.
Qed.

Lemma prefix_marker_comma_free (s : string) :
  comma_free s = true -> String.prefix "base64," s = false.
Proof.
  intros Hfree.
  repeat
    (destruct s as [|? s]; [done|];
     rewrite prefix_cons; destruct (ascii_dec _ _) as [<-|]; [|done]).
  by simpl in Hfree.
Qed.

Lemma prefix_marker_here (t : string) :
  String.prefix "base64," ("base64," +:+ t) = true.
Proof.
  repeat (rewrite append_cons, prefix_cons; destruct (ascii_dec _ _); [|done]).
  rewrite append_nil_l. by destruct t.
Qed.

Lemma after_first_unfold (sep s : string) :
  PyStr.after_first sep s =
  if String.prefix sep s then Some (PyStr.skip (String.length sep) s)
  else match s with
       | EmptyString => None
       | String _ r => PyStr.after_first sep r
       end.
Proof. by destruct s. Qed.

Lemma before_first_unfold (sep s : string) :
  PyStr.before_first sep s =
  if String.prefix sep s then EmptyString
  else match s with
       | EmptyString => EmptyString
       | String a r => String a (PyStr.before_first sep r)
       end.
Proof. by destruct s. Qed.

Lemma contains_unfold (sep s : string) :
  PyStr.contains sep s =
  String.prefix sep s
  || match s with
     | EmptyString => false
     | String _ r => PyStr.contains sep r
     end.
Proof. by destruct s. Qed.

Lemma after_first_marker (p t : string) :
  comma_free p = true ->
  PyStr.after_first "base64," (p +:+ "base64," +:+ t) = Some t.
Proof.
  induction p as [|a p IH]; intros Hfree.
  { rewrite append_nil_l, after_first_unfold, prefix_marker_here. reflexivity. }
  pose proof (prefix_marker_after_text (String a p) t ltac:(done) Hfree) as Hprefix.
  rewrite append_cons in *. rewrite after_first_unfold, Hprefix.
  apply IH. simpl in Hfree. by apply andb_prop in Hfree as [_ ?].
Qed.

Lemma contains_marker (p t : string) :
  PyStr.contains "base64," (p +:+ "base64," +:+ t) = true.
Proof.
  induction p as [|a p IH].
  { by rewrite append_nil_l, contains_unfold, prefix_marker_here. }
  rewrite append_cons, contains_unfold, IH. apply orb_true_r.
Qed.

Lemma before_first_marker (body t : string) :
  comma_free body = true ->
  PyStr.before_first "base64," (body +:+ "base64," +:+ t) = body.
Proof.
  induction body as [|a body IH]; intros Hfree.
  { by rewrite append_nil_l, before_first_unfold, prefix_marker_here. }
  pose proof (prefix_marker_after_text (String a body) t ltac:(done) Hfree) as Hprefix.
  rewrite append_cons in *. rewrite before_first_unfold, Hprefix.
  f_equal. apply IH. simpl in Hfree. by apply andb_prop in Hfree as [_ ?].
Qed.

Lemma before_first_comma_free (body : string) :
  comma_free body = true -> PyStr.before_first "base64," body = body.
Proof.
  induction body as [|a body IH]; intros Hfree; [done|].
  pose proof (prefix_marker_comma_free _ Hfree) as Hprefix.
  rewrite before_first_unfold, Hprefix. f_equal. apply IH.
  simpl in Hfree. by apply andb_prop in Hfree as [_ ?].
Qed.

Lemma contains_comma_free (s : string) :
  comma_free s = true -> PyStr.contains "base64," s = false.
Proof.
  induction s as [|a s IH]; intros Hfree; [done|].
  pose proof (prefix_marker_comma_free _ Hfree) as Hprefix.
  rewrite contains_unfold, Hprefix. simpl. apply IH.
  simpl in Hfree. by apply andb_prop in Hfree as [_ ?].
Qed.

Section Payloads.
Context `{Externals}.

(** X9. Of a payload [head base64, body] whose head and body hold no
    comma, as in a data URL, [base64_to_image] decodes the body alone; what
    follows a second marker is ignored; a payload without comma is decoded
    whole. *)
Theorem data_url_head_is_dropped (head body : string) :
  comma_free head = true ->
  comma_free body = true ->
  base64_to_image (head +:+ "base64," +:+ body) = b64decode_open body
  /\ (forall rest,
         base64_to_image (head +:+ "base64," +:+ body +:+ "base64," +:+ rest)
         = b64decode_open body)
  /\ base64_to_image body = b64decode_open body.
Proof.
  intros Hhead Hbody. unfold base64_to_image, PyStr.split_1.
  split; [|split].
  - rewrite contains_marker, after_first_marker by done. simpl.
    by rewrite before_first_comma_free.
  - intros rest.
    rewrite contains_marker, after_first_marker by done. simpl.
    by rewrite before_first_marker.
  - by rewrite contains_comma_free.
Qed.

End Payloads.

(** * The answers of [add_face] *)

Section Answers.
Context `{Externals}.

Lemma save_database_raises (w : World) (e : exn) :
  snd (save_database w) = Raised e -> e = OSError.
Proof.
  unfold save_database. destruct (io w) as [|[] ?]; simpl; congruence.
Qed.

(** What the duplicate check can answer on a store with as many rows as
    labels. *)
Lemma add_face_duplicate_outcomes (embedding : vec) (w : World) :
  consistent (self w) ->
  snd (add_face_duplicate embedding w) = Raised ValueError
  \/ snd (add_face_duplicate embedding w) = Returned None
  \/ exists existing,
       existing ∈ face_labels (self w)
       /\ snd (add_face_duplicate embedding w) =
            Returned (Some ("Человек уже существует в базе как '" +:+ existing +:+ "'")).
Proof.
  intros Hc.
  destruct (decide (face_embeddings (self w) = [])) as [Hnil | Hne].
  - left. by rewrite add_face_duplicate_no_rows.
  - right. destruct (first_min_exists _ embedding Hne) as (i & d & Hmin).
    destruct (add_face_duplicate_spec embedding w i d Hc Hmin) as (label & Hlabel & ->).
    destruct (Np.Qltb d (1 # 2)); [right | by left].
    exists label. split; [by apply list_elem_of_lookup_2 in Hlabel | done].
Qed.

Lemma add_face_check_unfold (embedding : vec) (w : World) :
  add_face_check embedding w =
    if (0 <? length (face_labels (self w)))%nat
    then match add_face_repair w with
         | (w1, Returned _) => add_face_duplicate embedding w1
         | (w1, Raised e) => (w1, Raised e)
         end
    else (w, Returned None).
Proof.
  unfold add_face_check. unfold mbind at 1 2, M_bind, get_face_labels. simpl.
  by destruct (0 <? length (face_labels (self w)))%nat.
Qed.

Lemma add_face_check_outcomes (embedding : vec) (w : World) :
  (exists e, (e = ValueError \/ e = OSError)
             /\ snd (add_face_check embedding w) = Raised e)
  \/ snd (add_face_check embedding w) = Returned None
  \/ exists existing,
       existing ∈ face_labels (self w)
       /\ snd (add_face_check embedding w) =
            Returned (Some ("Человек уже существует в базе как '" +:+ existing +:+ "'")).
Proof.
  rewrite add_face_check_unfold.
  destruct (0 <? length (face_labels (self w)))%nat; [|right; left; done].
  pose proof (add_face_repair_heals w) as Hc.
  assert (face_labels (self (fst (add_face_repair w))) ⊆ face_labels (self w)) as Hsub.
  { destruct (decide (length (face_embeddings (self w)) = length (face_labels (self w))))
      as [Heq | Hneq].
    - by rewrite add_face_repair_consistent.
    - rewrite add_face_repair_mismatch, save_database_self by done.
      apply subseteq_take. }
  assert (forall e, snd (add_face_repair w) = Raised e -> e = OSError) as Hraise.
  { intros e.
    destruct (decide (length (face_embeddings (self w)) = length (face_labels (self w))))
      as [Heq | Hneq].
    - by rewrite add_face_repair_consistent.
    - rewrite add_face_repair_mismatch by done. apply save_database_raises. }
  destruct (add_face_repair w) as [w1 [[]|e]]; simpl in *.
  - destruct (add_face_duplicate_outcomes embedding w1 Hc)
      as [Hdup | [Hdup | (existing & Hin & Hdup)]].
    + left. exists ValueError. split; [by left | done].
    + right; left; done.
    + right; right. exists existing. split; [by apply Hsub | done].
  - left. exists e. split; [right; by apply Hraise | done].
Qed.

Lemma add_face_store_unfold (embedding : vec) (comment : string) (w : World) :
  add_face_store embedding comment w =
    match add_face_check embedding w with
    | (w1, Returned (Some message)) => (w1, Returned message)
    | (w1, Returned None) => add_face_append embedding comment w1
    | (w1, Raised e) => (w1, Raised e)
    end.
Proof.
  unfold add_face_store. unfold mbind at 1, M_bind.
  by destruct (add_face_check embedding w) as [w1 [[message|]|e]].
Qed.

(** Every answer of [add_face] to an accepted label: an exception of the
    repair or of the empty reduction, or one of six messages. *)
Lemma add_face_accepted_outcomes (base64_str comment : string) (w : World) :
  valid_label comment ->
  (exists e, (e = ValueError \/ e = OSError)
             /\ snd (add_face base64_str comment w) = Raised e)
  \/ exists message,
       snd (add_face base64_str comment w) = Returned message
       /\ (message = "Невозможно декодировать изображение из base64"
           \/ message = "Ошибка обработки изображения"
           \/ message = "Лица не обнаружены"
           \/ (exists existing,
                  existing ∈ face_labels (self w)
                  /\ message = "Человек уже существует в базе как '" +:+ existing +:+ "'")
           \/ message = "Ok! I'll remember that it's " +:+ comment
           \/ message = "Невозможно добавить лицо в базу").
Proof.
  intros Hvalid. unfold add_face. rewrite (valid_label_test _ Hvalid).
  destruct (base64_to_image base64_str) as [img|]; [|right; eauto 10].
  unfold detect_main_face.
  destruct (cvtColor_BGR2RGB img ≫= face_app_get) as [faces|]; [|right; eauto 10].
  destruct (length faces =? 0)%nat; [right; eauto 10|].
  destruct (sorted_reverse bbox_area faces) as [|m rest]; [right; eauto 10|].
  rewrite add_face_store_unfold.
  destruct (add_face_check_outcomes (normed_embedding m) w)
    as [(e & He & Hcheck) | [Hcheck | (existing & Hin & Hcheck)]];
    destruct (add_face_check (normed_embedding m) w) as [w1 o];
    simpl in Hcheck; subst o.
  - left. exists e. split; [exact He | reflexivity].
  - right. simpl.
    destruct (add_face_append_message (normed_embedding m) comment w1)
      as [Hmsg | Hmsg]; rewrite Hmsg; eexists; (split; [reflexivity|]).
    + do 4 right. by left.
    + by do 5 right.
  - right. simpl. eexists. split; [reflexivity|].
    do 3 right. left. by exists existing.
Qed.

(** X8. [add_face] answers that the comment must not be empty exactly for
    the labels made of white-space characters only, the empty label
    included. *)
Theorem label_refused_iff_blank (base64_str comment : string) (w : World) :
  snd (add_face base64_str comment w) = Returned "Комментарий не может быть пустым"
  <-> PyStr.whitespace_only comment.
Proof.
  split.
  - intros Hrefused.
    destruct (decide (comment = "")) as [-> | Hne]; [constructor|].
    destruct (decide (PyStr.strip comment = "")) as [Hstrip | Hstrip];
      [by apply strip_nil_iff|].
    exfalso.
    destruct (add_face_accepted_outcomes base64_str comment w (conj Hne Hstrip))
      as [(e & _ & Hraise) | (message & Hmessage & Hcases)].
    + congruence.
    + rewrite Hmessage in Hrefused. injection Hrefused as ->.
      destruct Hcases as [Hm | [Hm | [Hm | [(existing & _ & Hm) | [Hm | Hm]]]]];
        discriminate Hm.
  - intros Hblank. unfold add_face. by rewrite (blank_label_test _ Hblank).
Qed.

(** X14. [add_face] answers with one of seven messages or lets a
    [ValueError] or an [OSError] escape, never an [IndexError]; a refusal as
    duplicate names a label that was stored before the call; the fallback
    message about mismatching data is never given. *)
Theorem add_face_answers (base64_str comment : string) (w : World) :
  match snd (add_face base64_str comment w) with
  | Raised e => e = ValueError \/ e = OSError
  | Returned message =>
      message = "Комментарий не может быть пустым"
      \/ message = "Невозможно декодировать изображение из base64"
      \/ message = "Ошибка обработки изображения"
      \/ message = "Лица не обнаружены"
      \/ (exists existing,
             existing ∈ face_labels (self w)
             /\ message = "Человек уже существует в базе как '" +:+ existing +:+ "'")
      \/ message = "Ok! I'll remember that it's " +:+ comment
      \/ message = "Невозможно добавить лицо в базу"
  end.
Proof.
  destruct (decide (comment = "")) as [-> | Hne]; [by left|].
  destruct (decide (PyStr.strip comment = "")) as [Hstrip | Hstrip].
  { unfold add_face. rewrite Hstrip. rewrite orb_true_r. by left. }
  destruct (add_face_accepted_outcomes base64_str comment w (conj Hne Hstrip))
    as [(e & He & ->) | (message & -> & Hcases)]; [done|].
  by right.
Qed.

End Answers.

(** * The description and safety services *)

Lemma prefix_refl_app (s t : string) : String.prefix s (s +:+ t) = true.
Proof.
  induction s as [|a s IH]; [by destruct t|].
  rewrite append_cons, prefix_cons. by destruct (ascii_dec a a).
Qed.

Lemma append_eq_self (s t : string) : s +:+ t = s -> t = "".
Proof.
  induction s as [|a s IH]; [done|].
  rewrite append_cons. intros Heq. injection Heq as Heq. by apply IH.
Qed.

Lemma comma_free_app (s t : string) :
  comma_free (s +:+ t) = comma_free s && comma_free t.
Proof.
  induction s as [|a s IH]; [done|].
  rewrite append_cons. simpl. rewrite IH. by rewrite andb_assoc.
Qed.

(** The marker with its semicolon, read like the one without. *)
Lemma prefix_semi_marker_here (t : string) :
  String.prefix ";base64," (";base64," +:+ t) = true.
Proof. apply prefix_refl_app. Qed.

Lemma prefix_semi_marker_after_text (p t : string) :
  p <> "" ->
  comma_free p = true ->
  String.prefix ";base64," (p +:+ ";base64," +:+ t) = false.
Proof.
  intros Hne Hfree.
  destruct p as [|a1 p]; [done|]. clear Hne.
  repeat
    (rewrite append_cons, prefix_cons;
     destruct (ascii_dec _ _) as [<-|]; [|done];
     destruct p as [|? p];
     [rewrite append_nil_l, append_cons, prefix_cons; by destruct (ascii_dec _ _)|]).
  rewrite append_cons, prefix_cons.
  destruct (ascii_dec _ _) as [<-|]; [|done].
  by simpl in Hfree.
Qed.

Lemma prefix_semi_marker_comma_free (s : string) :
  comma_free s = true -> String.prefix ";base64," s = false.
Proof.
  intros Hfree.
  repeat
    (destruct s as [|? s]; [done|];
     rewrite prefix_cons; destruct (ascii_dec _ _) as [<-|]; [|done]).
  by simpl in Hfree.
Qed.

Lemma after_first_semi_marker (p t : string) :
  comma_free p = true ->
  PyStr.after_first ";base64," (p +:+ ";base64," +:+ t) = Some t.
Proof.
  induction p as [|a p IH]; intros Hfree.
  { rewrite append_nil_l, after_first_unfold, prefix_semi_marker_here. reflexivity. }
  pose proof (prefix_semi_marker_after_text (String a p) t ltac:(done) Hfree) as Hprefix.
  rewrite append_cons in *. rewrite after_first_unfold, Hprefix.
  apply IH. simpl in Hfree. by apply andb_prop in Hfree as [_ ?].
Qed.

Lemma contains_semi_marker (p t : string) :
  PyStr.contains ";base64," (p +:+ ";base64," +:+ t) = true.
Proof.
  induction p as [|a p IH].
  { by rewrite append_nil_l, contains_unfold, prefix_semi_marker_here. }
  rewrite append_cons, contains_unfold, IH. apply orb_true_r.
Qed.

Lemma before_first_semi_comma_free (body : string) :
  comma_free body = true -> PyStr.before_first ";base64," body = body.
Proof.
  induction body as [|a body IH]; intros Hfree; [done|].
  pose proof (prefix_semi_marker_comma_free _ Hfree) as Hprefix.
  rewrite before_first_unfold, Hprefix. f_equal. apply IH.
  simpl in Hfree. by apply andb_prop in Hfree as [_ ?].
Qed.

Lemma contains_semi_comma_free (s : string) :
  comma_free s = true -> PyStr.contains ";base64," s = false.
Proof.
  induction s as [|a s IH]; intros Hfree; [done|].
  pose proof (prefix_semi_marker_comma_free _ Hfree) as Hprefix.
  rewrite contains_unfold, Hprefix. simpl. apply IH.
  simpl in Hfree. by apply andb_prop in Hfree as [_ ?].
Qed.

Section ServiceProperties.
Context `{VisionLanguageModel} `{Externals}.

(** X15. For a data URL [head;base64,body] without comma in head and body,
    the face methods and the two services work on the same body; for a
    payload [base64,body] without the semicolon the face methods still
    decode the body, while the services are given the whole payload. *)
Theorem data_url_bodies (head body : string) :
  comma_free head = true ->
  comma_free body = true ->
  vlm_payload (head +:+ ";base64," +:+ body) = Some body
  /\ base64_to_image (head +:+ ";base64," +:+ body) = b64decode_open body
  /\ vlm_payload ("base64," +:+ body) = Some ("base64," +:+ body)
  /\ base64_to_image ("base64," +:+ body) = b64decode_open body.
Proof.
  intros Hhead Hbody. split; [|split; [|split]].
  - unfold vlm_payload, PyStr.split_1.
    rewrite contains_semi_marker, after_first_semi_marker by done. simpl.
    by rewrite before_first_semi_comma_free.
  - replace (head +:+ ";base64," +:+ body)
      with ((head +:+ ";") +:+ "base64," +:+ body).
    + unfold base64_to_image, PyStr.split_1.
      rewrite contains_marker, after_first_marker
        by (by rewrite comma_free_app, Hhead).
      simpl. by rewrite before_first_comma_free.
    + rewrite !append_assoc. f_equal.
  - unfold vlm_payload.
    assert (PyStr.contains ";base64," ("base64," +:+ body) = false) as ->; [|done].
    repeat (rewrite append_cons, contains_unfold, prefix_cons;
            destruct (ascii_dec _ _); [done|]; simpl).
    rewrite append_nil_l. by apply contains_semi_comma_free.
  - pose proof (contains_marker "" body) as Hcontains.
    pose proof (after_first_marker "" body eq_refl) as Hafter.
    rewrite append_nil_l in Hcontains, Hafter.
    unfold base64_to_image, PyStr.split_1.
    rewrite Hcontains, Hafter. simpl. by rewrite before_first_comma_free.
Qed.

(** X16. [check_safety] fails closed: it says [SAFE] exactly when the model
    is loaded, the image file could be made, the chat returned, and the
    response, stripped, is [SAFE]; every failure on the way is answered
    with a text that starts with [UNSAFE]. *)
Theorem check_safety_fails_closed (app : AppState) (image_base64 : string) :
  (check_safety app image_base64 = "SAFE" <->
   has_model app = true
   /\ vlm_loaded app = true
   /\ exists body tmp_path response,
        vlm_payload image_base64 = Some body
        /\ vlm_image_file body = inl tmp_path
        /\ vlm_chat tmp_path SAFETY_PROMPT = inl response
        /\ PyStr.strip response = "SAFE")
  /\ (String.prefix "UNSAFE" (check_safety app image_base64) = true
      \/ exists body tmp_path response,
           vlm_payload image_base64 = Some body
           /\ vlm_image_file body = inl tmp_path
           /\ vlm_chat tmp_path SAFETY_PROMPT = inl response
           /\ check_safety app image_base64 = PyStr.strip response).
Proof.
  unfold check_safety.
  destruct (has_model app), (vlm_loaded app); simpl;
    try (split; [split; [discriminate | intros (? & ? & _); discriminate]
                | by left]).
  destruct (vlm_payload image_base64) as [body|] eqn:Hpayload.
  2:{ split; [|by left].
      split; [discriminate | intros (_ & _ & ? & ? & ? & ? & _); discriminate]. }
  destruct (vlm_image_file body) as [tmp_path|e] eqn:Hfile.
  2:{ split; [|by left].
      split; [discriminate|].
      intros (_ & _ & ? & ? & ? & [= <-] & ? & _). congruence. }
  destruct (vlm_chat tmp_path SAFETY_PROMPT) as [response|e] eqn:Hchat.
  2:{ split; [|by left].
      split; [discriminate|].
      intros (_ & _ & ? & ? & ? & [= <-] & ? & ? & _). congruence. }
  split; [|right; by exists body, tmp_path, response].
  split.
  - intros Hsafe. repeat split. by exists body, tmp_path, response.
  - intros (_ & _ & body' & tmp_path' & response' & [= <-] & Hfile' & Hchat' & Hstrip).
    congruence.
Qed.

(** X17. The prompt that [generate_description] gives to the model always
    starts with [DEFAULT_PROMPT]; it is [DEFAULT_PROMPT] alone exactly when
    the user's prompt is empty or white space, and otherwise the user's
    prompt, stripped, follows after one space. *)
Theorem user_prompt_follows_the_preamble (prompt : string) :
  String.prefix DEFAULT_PROMPT (final_prompt prompt) = true
  /\ (final_prompt prompt = DEFAULT_PROMPT <-> PyStr.whitespace_only prompt)
  /\ (~ PyStr.whitespace_only prompt ->
      final_prompt prompt = DEFAULT_PROMPT +:+ " " +:+ PyStr.strip prompt).
Proof.
  assert (String.prefix DEFAULT_PROMPT DEFAULT_PROMPT = true) as Hrefl.
  { rewrite <- (append_nil_r DEFAULT_PROMPT) at 2. apply prefix_refl_app. }
  unfold final_prompt, PyStr.truthy.
  destruct (String.eqb_spec prompt "") as [-> | Hne]; cbn [negb andb].
  { split; [exact Hrefl|].
    split; [split; [constructor | done]|].
    intros Hws. exfalso. apply Hws. constructor. }
  destruct (String.eqb_spec (PyStr.strip prompt) "") as [Hstrip | Hstrip];
    cbn [negb andb].
  - apply strip_nil_iff in Hstrip.
    split; [exact Hrefl|]. split; [done|]. by intros Hws.
  - split; [apply prefix_refl_app|]. split; [|done].
    split.
    + intros Heq. apply append_eq_self in Heq.
      apply append_eq_nil in Heq as [Heq _]. discriminate Heq.
    + intros Hws. by apply strip_nil_iff in Hws.
Qed.

End ServiceProperties.

(** * The [/analyze] endpoint *)

Lemma no_face_text : PyStr.contains "не обнаружено" (py_lower "Лиц не обнаружено") = true.
Proof. reflexivity. Qed.

Lemma faces_found_text (n : nat) :
  (1 <= n <= 8)%nat ->
  PyStr.contains "не обнаружено" (py_lower ("Обнаружено лиц: " +:+ pretty n)) = false.
Proof.
  intros [Hlo Hhi].
  do 9 (destruct n as [|n]; [first [lia | by vm_compute]|]). lia.
Qed.

Section Analyze.
Context `{VisionLanguageModel} `{Externals}.

Lemma detect_all_faces_length (img : option image) (embeddings : list vec) :
  detect_all_faces img = Detected embeddings ->
  (1 <= length embeddings <= MAX_FACES_FOR_CHECK)%nat.
Proof.
  unfold detect_all_faces.
  destruct img as [img|]; [|done].
  destruct (cvtColor_BGR2RGB img ≫= face_app_get) as [faces|]; [|done].
  destruct (Nat.eqb_spec (length faces) 0) as [Hz | Hnz]; [done|].
  destruct (Nat.ltb_spec MAX_FACES_FOR_CHECK (length faces)) as [Hlt | Hle];
    intros [= <-]; rewrite length_map; [rewrite length_take|];
    unfold MAX_FACES_FOR_CHECK in *; lia.
Qed.

(** On a store with as many rows as labels [recognize_faces] returns. *)
Lemma recognize_faces_returns (base64_str : string) (w : World) :
  consistent (self w) ->
  exists recognized signal,
    recognize_faces base64_str w = (w, Returned (recognized, signal)).
Proof.
  intros Hc. unfold recognize_faces.
  destruct (base64_to_image base64_str) as [img|]; [|simpl; eauto].
  destruct (detect_all_faces (Some img)) as [embeddings|error]; [|simpl; eauto].
  munfold. simpl.
  destruct (Nat.eqb_spec (length (face_labels (self w))) 0) as [Hz | Hnz];
    [simpl; eauto|].
  rewrite recognize_loop_omap; [simpl; eauto | done |].
  apply consistent_rows_nonempty; [done|].
  intros Hnil. by rewrite Hnil in Hnz.
Qed.

Lemma analyze_faces_spec (app : AppState) (image_base64 : string) (w : World) :
  consistent (self w) ->
  exists face_detection_result,
    analyze_faces app image_base64 w =
      (w, Returned (face_detection_result, announced app image_base64 w))
    /\ (PyStr.contains "не обнаружено" (py_lower face_detection_result) = true ->
        announced app image_base64 w = []).
Proof.
  intros Hc. unfold analyze_faces, announced.
  destruct (face_recognition_loaded app && face_system app);
    [|exists "Лиц не обнаружено"; by split].
  destruct (recognize_faces_returns image_base64 w Hc) as (recognized & signal & Hrec).
  rewrite Hrec. simpl.
  destruct (base64_to_image image_base64) as [img|] eqn:Himg.
  2:{ assert (recognized = []) as ->.
      { unfold recognize_faces in Hrec. rewrite Himg in Hrec.
        by injection Hrec as <- _. }
      exists "Лиц не обнаружено". by split. }
  destruct (detect_all_faces (Some img)) as [[|e embeddings]|error] eqn:Hdetect.
  - assert (recognized = []) as ->.
    { unfold recognize_faces in Hrec. rewrite Himg, Hdetect in Hrec.
      revert Hrec. munfold. simpl.
      destruct (length (face_labels (self w)) =? 0)%nat; by intros [= <- _]. }
    exists "Лиц не обнаружено". by split.
  - exists ("Обнаружено лиц: " +:+ pretty (length (e :: embeddings))). split.
    + unfold mbind at 1, M_bind. rewrite Hrec. by destruct recognized.
    + intros Htext. apply detect_all_faces_length in Hdetect.
      by rewrite faces_found_text in Htext.
  - assert (recognized = []) as ->.
    { unfold recognize_faces in Hrec. rewrite Himg, Hdetect in Hrec.
      by injection Hrec as <- _. }
    exists "Лиц не обнаружено". by split.
Qed.

(** X18. On a store with as many rows as labels [/analyze] leaves the world
    as it is and returns the description from [generate_description],
    preceded, when [recognize_faces] gave entries, by the sentence that
    names them in their order, separated by commas. *)
Theorem analyze_image_result (app : AppState) (image_base64 prompt : string)
    (w : World) :
  consistent (self w) ->
  let names := announced app image_base64 w in
  let greeting :=
    match names with
    | [] => ""
    | _ :: _ => "I remember this person! This is " +:+ String.concat ", " names +:+ ". "
    end in
  analyze_image app image_base64 prompt w =
    (w, Returned (greeting +:+ generate_description app image_base64 prompt)).
Proof.
  intros Hc names greeting.
  destruct (analyze_faces_spec app image_base64 w Hc) as (text & Hfaces & Htext).
  unfold analyze_image. unfold mbind at 1, M_bind. rewrite Hfaces.
  fold names in Htext |- *.
  destruct (PyStr.contains "не обнаружено" (py_lower text)).
  - unfold greeting. by rewrite (Htext eq_refl).
  - unfold greeting. by destruct names.
Qed.

End Analyze.

(** * Enrolment followed by recognition *)

(** A last value below all others is the first minimum. *)
Lemma first_min_last (l : list Q) (d : Q) :
  Forall (fun x => (1 # 2 <= x)%Q) l ->
  (d < 1 # 2)%Q ->
  first_min (l ++ [d]) (length l) d.
Proof.
  intros Hall Hd. rewrite Forall_forall in Hall. repeat split.
  - rewrite lookup_app_r by lia. by rewrite Nat.sub_diag.
  - intros j x Hx. apply lookup_app_Some in Hx as [Hx | [_ Hx]].
    + apply list_elem_of_lookup_2 in Hx. apply Qlt_le_weak.
      eapply Qlt_le_trans; [exact Hd | by apply Hall].
    + destruct (j - length l)%nat; simpl in Hx; [|done].
      injection Hx as <-. apply Qle_refl.
  - intros j x Hx Hj. apply lookup_app_Some in Hx as [Hx | [Hge _]]; [|lia].
    apply list_elem_of_lookup_2 in Hx.
    eapply Qlt_le_trans; [exact Hd | by apply Hall].
Qed.

Section RoundTrip.
Context `{Externals}.

(** X19. Enrolment can be read back: after [add_face] has appended the
    only face of an image, new to the store and at a distance below the
    duplicate threshold from itself, [recognize_faces] on the same image
    returns exactly one entry, with the label just given. *)
Theorem enrolled_face_is_recognized (base64_str comment : string) (f : Face vec)
    (w : World) :
  valid_label comment ->
  sees base64_str [f] ->
  consistent (self w) ->
  new_face (self w) (normed_embedding f) ->
  (LA_norm (np_sub (normed_embedding f) (normed_embedding f)) < 1 # 2)%Q ->
  let w1 := fst (add_face base64_str comment w) in
  let d := LA_norm (np_sub (normed_embedding f) (normed_embedding f)) in
  recognize_faces base64_str w1 =
    (w1, Returned ([MatchResult comment (py_max 0 (100 - d * 100))], None)).
Proof.
  intros Hvalid Hsees Hc Hnew Hself w1 d.
  assert (detect_main_face (base64_to_image base64_str) = Detected (normed_embedding f))
    as Hdetect by exact (detect_main_face_sees _ [f] [] f Hsees eq_refl).
  assert (self w1 = mkStore (face_embeddings (self w) ++ [normed_embedding f])
                            (face_labels (self w) ++ [comment])) as Hstore.
  { unfold w1. rewrite (add_face_accepted _ _ (normed_embedding f)) by done.
    rewrite add_face_store_new_face by done. apply add_face_append_self. }
  assert (consistent (self w1)) as Hc1.
  { rewrite Hstore. by apply appended_consistent. }
  assert (first_min (row_norms (face_embeddings (self w1)) (normed_embedding f))
                    (length (face_embeddings (self w))) d) as Hmin.
  { rewrite Hstore. simpl. rewrite row_norms_app. simpl.
    rewrite <- (row_norms_length (face_embeddings (self w)) (normed_embedding f)).
    by apply first_min_last. }
  destruct (recognize_loop_step _ w1 _ _ Hc1 Hmin) as (label & Hlabel & Hmatch & _).
  assert (label = comment) as ->.
  { rewrite Hstore in Hlabel. simpl in Hlabel. unfold consistent in Hc.
    rewrite Hc, lookup_app_r, Nat.sub_diag in Hlabel by lia. by injection Hlabel. }
  assert ((d < 7 # 10)%Q) as Hd.
  { eapply Qlt_trans; [exact Hself | reflexivity]. }
  apply Qltb_true in Hd. rewrite Hd in Hmatch.
  rewrite (recognize_faces_sees base64_str [f] w1 Hsees); [|done|done|].
  - simpl. by rewrite Hmatch.
  - rewrite Hstore. simpl. by destruct (face_labels (self w)).
Qed.

(** X20. Every entry returned by [recognize_faces] on a store with as many
    rows as labels names a stored label and has a confidence above 30: the
    lower bound 0 of [max(0, ...)] is never reached. *)
Theorem matches_are_above_thirty (base64_str : string) (w : World)
    (recognized : list match_result) (signal : option string) :
  consistent (self w) ->
  snd (recognize_faces base64_str w) = Returned (recognized, signal) ->
  Forall (fun r => name r ∈ face_labels (self w) /\ (30 < confidence r)%Q) recognized.
Proof.
  intros Hc. unfold recognize_faces.
  destruct (base64_to_image base64_str) as [img|]; [|by intros [= <- _]].
  destruct (detect_all_faces (Some img)) as [embeddings|error]; [|by intros [= <- _]].
  munfold. simpl.
  destruct (Nat.eqb_spec (length (face_labels (self w))) 0) as [Hz | Hnz];
    [by intros [= <- _]|].
  assert (face_embeddings (self w) <> []) as Hrows.
  { apply consistent_rows_nonempty; [done|]. intros Hnil. by rewrite Hnil in Hnz. }
  rewrite recognize_loop_omap by done. simpl. intros [= <- _].
  clear Hnz. induction embeddings as [|e embeddings IH]; [constructor|].
  change (omap (face_match (self w)) (e :: embeddings))
    with (from_option (fun r => r :: omap (face_match (self w)) embeddings)
                      (omap (face_match (self w)) embeddings)
                      (face_match (self w) e)).
  destruct (first_min_exists _ e Hrows) as (i & d & Hmin).
  destruct (recognize_loop_step e w i d Hc Hmin) as (label & Hlabel & -> & _).
  destruct (Np.Qltb d (7 # 10)) eqn:Hlt; simpl; [|exact IH].
  constructor; [|exact IH]. simpl. split.
  - by apply list_elem_of_lookup_2 in Hlabel.
  - apply Qltb_true in Hlt. unfold py_max.
    destruct (Np.Qltb 0 (100 - d * 100)) eqn:Hpos.
    + lra.
    + apply Qltb_false in Hpos. lra.
Qed.

End RoundTrip.

(** * The further properties on the albums *)

Module DemoExtras.
Import Demo DemoVLM DemoBroken.

Ltac demo_sees := eexists _, _; repeat split; reflexivity.
Ltac demo_valid := split; vm_compute; discriminate.
Ltac demo_first_min := apply first_min_computed; reflexivity.
Ltac demo_new_face := repeat (constructor; [vm_compute; discriminate|]); constructor.

(** X1, for the store of Anna and Boris. *)
Lemma save_then_load_witness :
  next_write_succeeds two_people
  /\ load_database (fst (save_database two_people)) =
       (fst (save_database two_people), Returned tt)
  /\ self (fst (init (files (fst (save_database two_people))) [])) = self two_people.
Proof.
  assert (next_write_succeeds two_people) as Hio by exact I.
  destruct (@save_then_load externals two_people Hio) as (_ & _ & Hload & Hinit).
  split; [exact Hio|]. split; [exact Hload | exact (Hinit [])].
Defined.

(** X2, on a store that makes [recognize_faces] raise. *)
Lemma recognize_faces_read_only_witness :
  snd (recognize_faces "anna" labels_only) = Raised ValueError
  /\ fst (recognize_faces "anna" labels_only) = labels_only.
Proof.
  split; [reflexivity|].
  exact (proj1 (@recognize_faces_read_only externals "anna" labels_only)).
Defined.

(** X3, with a label and no row, and with two rows and one label: the face
    of Anna matches the second row, which has no label, whether it is the
    only face or comes after the face of Boris, which is matched first. *)
Lemma recognize_on_inconsistent_store_witness :
  sees "anna" [square 20 anna]
  /\ sees "small-then-large" [square 10 boris; square 20 anna]
  /\ recognize_faces "anna" labels_only = (labels_only, Raised ValueError)
  /\ recognize_faces "anna" unlabelled_row = (unlabelled_row, Raised IndexError)
  /\ recognize_faces "small-then-large" unlabelled_row =
       (unlabelled_row, Raised IndexError).
Proof.
  assert (sees "anna" [square 20 anna]) as Hs by demo_sees.
  assert (sees "small-then-large" [square 10 boris; square 20 anna]) as Hs'
    by demo_sees.
  assert (first_min (row_norms (face_embeddings (self unlabelled_row)) anna)
                    1 (norm (sub anna anna))) as Hmin by demo_first_min.
  split; [exact Hs|]. split; [exact Hs'|]. split; [|split].
  - exact (proj1 (@recognize_on_inconsistent_store externals "anna" _ [] labels_only
                    Hs ltac:(discriminate)) eq_refl).
  - refine (proj2 (@recognize_on_inconsistent_store externals "anna" _ [] unlabelled_row
                     Hs ltac:(discriminate)) anna 1%nat _ _ Hmin eq_refl (le_n 1)).
    apply elem_of_cons. by left.
  - refine (proj2 (@recognize_on_inconsistent_store externals "small-then-large" _ _
                     unlabelled_row Hs' ltac:(discriminate))
                  anna 1%nat _ _ Hmin eq_refl (le_n 1)).
    apply elem_of_cons. right. apply elem_of_cons. by left.
Defined.

(** X4, with one label and no row. *)
Lemma labels_without_rows_are_wiped_witness :
  valid_label "Anna"
  /\ add_face "anna" "Anna" labels_only =
       (mkWorld (mkStore [] []) (mkFiles (Some []) (Some [])) [], Raised ValueError).
Proof.
  assert (valid_label "Anna") as Hv by demo_valid.
  split; [exact Hv|].
  exact (@labels_without_rows_are_wiped externals "anna" "Anna" anna labels_only
           Hv eq_refl ltac:(discriminate) eq_refl I).
Defined.

(** X5, on the empty store: Anna, enrolled, is refused under another label. *)
Lemma second_enrolment_refused_witness :
  valid_label "Anna"
  /\ valid_label "Anya"
  /\ (LA_norm (np_sub anna anna) < 1 # 2)%Q
  /\ exists existing,
       add_face "anna" "Anya" (fst (add_face "anna" "Anna" empty_world)) =
         (fst (add_face "anna" "Anna" empty_world),
          Returned ("Человек уже существует в базе как '" +:+ existing +:+ "'")).
Proof.
  assert (valid_label "Anna") as Hv by demo_valid.
  assert (valid_label "Anya") as Hv' by demo_valid.
  assert (LA_norm (np_sub anna anna) < 1 # 2)%Q as Hd by reflexivity.
  split; [exact Hv|]. split; [exact Hv'|]. split; [exact Hd|].
  destruct (@second_enrolment_refused externals "anna" "Anna" "Anya" anna empty_world
              Hv Hv' eq_refl Hd eq_refl) as (existing & _ & Hadd).
  by exists existing.
Defined.

(** X6, with Anna and Boris stored and a third face whose label is not
    written; and on the empty store, where the row of Anna stays without
    label. *)
Lemma unlabelled_row_dropped_after_restart_witness :
  let w := mkWorld (self two_people) (files two_people) [OpenLabelsRaises] in
  let w1 := fst (add_face "anna-0.5" "Vera" w) in
  let w2 := fst (init (files w1) []) in
  let e := mkWorld (self empty_world) (mkFiles (Some []) (Some [])) [OpenLabelsRaises] in
  let e2 := fst (init (files (fst (add_face "anna" "Anna" e))) []) in
  new_face (self w) [7 # 10; 4 # 10]%Q
  /\ self w2 = mkStore [anna; boris; [7 # 10; 4 # 10]%Q] ["Anna"; "Boris"]
  /\ add_face "boris" "Borya" w2 = add_face "boris" "Borya" two_people
  /\ new_face (self e) anna
  /\ self e2 = mkStore [anna] []
  /\ self (fst (add_face "boris" "Boris" e2)) = mkStore [anna; boris] ["Boris"].
Proof.
  intros w w1 w2 e e2.
  assert (valid_label "Vera") as Hv by demo_valid.
  assert (valid_label "Borya") as Hv' by demo_valid.
  assert (valid_label "Anna") as Ha by demo_valid.
  assert (valid_label "Boris") as Hb by demo_valid.
  assert (new_face (self w) [7 # 10; 4 # 10]%Q) as Hnew by demo_new_face.
  assert (new_face (self e) anna) as Hnew' by demo_new_face.
  destruct (@unlabelled_row_dropped_after_restart externals
              "anna-0.5" "Vera" "boris" "Borya" _ boris w []
              Hv eq_refl Hv' eq_refl eq_refl Hnew eq_refl eq_refl)
    as (_ & _ & Hstore & Hnext & _).
  destruct (@unlabelled_row_dropped_after_restart externals
              "anna" "Anna" "boris" "Boris" anna boris e []
              Ha eq_refl Hb eq_refl eq_refl Hnew' eq_refl eq_refl)
    as (_ & _ & Hstore' & _ & Hkept).
  split; [exact Hnew|]. split; [exact Hstore|].
  split; [exact (Hnext ltac:(discriminate) I)|].
  split; [exact Hnew'|]. split; [exact Hstore' | exact (Hkept eq_refl)].
Defined.

(** X7, on a picture without face. *)
Lemma detectors_fail_together_witness :
  detect_main_face (base64_to_image "nobody") = DetectError "Лица не обнаружены"
  /\ detect_all_faces (base64_to_image "nobody") = DetectError "Лица не обнаружены".
Proof.
  assert (detect_main_face (base64_to_image "nobody") = DetectError "Лица не обнаружены")
    as Hmain by reflexivity.
  split; [exact Hmain|].
  exact (proj1 (@detectors_fail_together externals _ _) Hmain).
Defined.

(** X8, with a tab and a space. *)
Lemma label_refused_iff_blank_witness :
  PyStr.whitespace_only (String (ascii_of_nat 9) " ")
  /\ snd (add_face "anna" (String (ascii_of_nat 9) " ") two_people)
     = Returned "Комментарий не может быть пустым".
Proof.
  assert (PyStr.whitespace_only (String (ascii_of_nat 9) " ")) as Hws.
  { repeat (apply PyStr.ws_one; [reflexivity|]). constructor. }
  split; [exact Hws|].
  exact (proj2 (@label_refused_iff_blank externals "anna" _ two_people) Hws).
Defined.

(** X9, with the head of a PNG data URL. *)
Lemma data_url_head_is_dropped_witness :
  comma_free "data:image/png;" = true
  /\ comma_free "anna" = true
  /\ base64_to_image "data:image/png;base64,anna" = Some [square 20 anna]
  /\ base64_to_image "data:image/png;base64,annabase64,boris" = Some [square 20 anna].
Proof.
  destruct (@data_url_head_is_dropped externals "data:image/png;" "anna"
              eq_refl eq_refl) as (Hone & Htwo & _).
  split; [reflexivity|]. split; [reflexivity|].
  split; [exact Hone | exact (Htwo "boris")].
Defined.

(** X10, with a small face and then two faces of the same, largest size:
    the first of the two is taken. *)
Lemma first_of_the_largest_faces_witness :
  @sees DemoTwins.externals "twins"
        [square 5 boris; square 20 anna; square 20 boris]
  /\ @detect_main_face DemoTwins.externals
       (@base64_to_image DemoTwins.externals "twins") = Detected anna.
Proof.
  assert (@sees DemoTwins.externals "twins"
                [square 5 boris; square 20 anna; square 20 boris]) as Hs
    by demo_sees.
  split; [exact Hs|].
  refine (@first_of_the_largest_faces DemoTwins.externals "twins"
            [square 5 boris] [square 20 boris] (square 20 anna) Hs _ _).
  - constructor; [reflexivity | constructor].
  - constructor; [vm_compute; discriminate | constructor].
Defined.

(** X11, with a face at distance 0.5 of Anna. *)
Lemma add_face_keeps_records_witness :
  consistent (self two_people)
  /\ (self (fst (add_face "anna-0.5" "Vera" two_people)) = self two_people
      \/ exists embedding,
           detect_main_face (base64_to_image "anna-0.5") = Detected embedding
           /\ self (fst (add_face "anna-0.5" "Vera" two_people)) =
                mkStore ([anna; boris] ++ [embedding]) (["Anna"; "Boris"] ++ ["Vera"])).
Proof.
  assert (consistent (self two_people)) as Hc by reflexivity.
  split; [exact Hc|].
  exact (@add_face_keeps_records externals "anna-0.5" "Vera" two_people Hc).
Defined.

(** X12, for the same enrolment. *)
Lemma enrolment_is_durable_witness :
  consistent (self two_people)
  /\ persisted two_people
  /\ next_write_succeeds two_people
  /\ persisted (fst (add_face "anna-0.5" "Vera" two_people)).
Proof.
  assert (consistent (self two_people)) as Hc by reflexivity.
  assert (persisted two_people) as Hp by reflexivity.
  assert (next_write_succeeds two_people) as Hio by exact I.
  split; [exact Hc|]. split; [exact Hp|]. split; [exact Hio|].
  exact (@enrolment_is_durable externals "anna-0.5" "Vera" two_people Hc Hp Hio).
Defined.

(** X13, for the same enrolment when [np.save] cannot open its file. *)
Lemma failed_write_is_lost_on_restart_witness :
  let w := mkWorld (self two_people) (files two_people) [NpSaveRaises] in
  let w1 := fst (add_face "anna-0.5" "Vera" w) in
  persisted w
  /\ snd (add_face "anna-0.5" "Vera" w) = Returned "Невозможно добавить лицо в базу"
  /\ face_labels (self w1) = ["Anna"; "Boris"; "Vera"]
  /\ self (fst (init (files w1) [])) = self two_people.
Proof.
  intros w w1.
  assert (valid_label "Vera") as Hv by demo_valid.
  assert (new_face (self w) [7 # 10; 4 # 10]%Q) as Hnew by demo_new_face.
  assert (persisted w) as Hp by reflexivity.
  destruct (@failed_write_is_lost_on_restart externals "anna-0.5" "Vera" _ w []
              Hv eq_refl eq_refl Hnew Hp eq_refl) as (Hadd & Hrestart & _).
  split; [exact Hp|]. split; [by rewrite Hadd|].
  split; [unfold w1; by rewrite Hadd | exact Hrestart].
Defined.

(** X14, for an enrolment that is refused. *)
Lemma add_face_answers_witness :
  exists existing,
    existing ∈ face_labels (self two_people)
    /\ snd (add_face "anna" "Vera" two_people) =
         Returned ("Человек уже существует в базе как '" +:+ existing +:+ "'").
Proof.
  pose proof (@add_face_answers externals "anna" "Vera" two_people) as Hanswer.
  assert (snd (add_face "anna" "Vera" two_people)
          = Returned "Человек уже существует в базе как 'Anna'") as Heq by reflexivity.
  rewrite Heq in Hanswer |- *.
  destruct Hanswer as [Hm | [Hm | [Hm | [Hm | [(existing & Hin & Hm) | [Hm | Hm]]]]]];
    try discriminate Hm.
  exists existing. split; [exact Hin | by rewrite Hm].
Defined.

(** X15, with the head of a PNG data URL. *)
Lemma data_url_bodies_witness :
  vlm_payload "data:image/png;base64,anna" = Some "anna"
  /\ base64_to_image "data:image/png;base64,anna" = Some [square 20 anna]
  /\ vlm_payload "base64,anna" = Some "base64,anna"
  /\ base64_to_image "base64,anna" = Some [square 20 anna].
Proof.
  exact (@data_url_bodies externals "data:image/png" "anna" eq_refl eq_refl).
Defined.

(** X16, with the model loaded and with the model missing. *)
Lemma check_safety_fails_closed_witness :
  check_safety ready "data:image/png;base64,anna" = "SAFE"
  /\ check_safety no_model "data:image/png;base64,anna" <> "SAFE".
Proof.
  split.
  - apply (proj1 (@check_safety_fails_closed model ready "data:image/png;base64,anna")).
    split; [reflexivity|]. split; [reflexivity|].
    exists "anna", "/tmp/anna.jpg", (" SAFE" +:+ newline). repeat split.
  - intros Hsafe.
    apply (proj1 (@check_safety_fails_closed model no_model "data:image/png;base64,anna"))
      in Hsafe as (Hmodel & _).
    discriminate Hmodel.
Defined.

(** X17, with a question between spaces and with spaces only. *)
Lemma user_prompt_follows_the_preamble_witness :
  final_prompt "  Who is this? " = DEFAULT_PROMPT +:+ " " +:+ "Who is this?"
  /\ final_prompt "   " = DEFAULT_PROMPT.
Proof.
  split.
  - apply (proj2 (proj2 (user_prompt_follows_the_preamble "  Who is this? "))).
    intros Hws. apply strip_whitespace_only in Hws. discriminate Hws.
  - apply (proj1 (proj2 (user_prompt_follows_the_preamble "   "))).
    repeat (apply PyStr.ws_one; [reflexivity|]). constructor.
Defined.

(** X18, with a picture of Anna, a stranger and Anna again. *)
Lemma analyze_image_result_witness :
  consistent (self two_people)
  /\ analyze_image ready "anna-stranger-anna" "" two_people =
       (two_people,
        Returned ("I remember this person! This is Anna, Anna. " +:+ "A portrait.")).
Proof.
  assert (consistent (self two_people)) as Hc by reflexivity.
  split; [exact Hc|].
  exact (@analyze_image_result model externals ready "anna-stranger-anna" ""
           two_people Hc).
Defined.

(** X19, on the empty store. *)
Lemma enrolled_face_is_recognized_witness :
  valid_label "Anna"
  /\ sees "anna" [square 20 anna]
  /\ new_face (self empty_world) anna
  /\ recognize_faces "anna" (fst (add_face "anna" "Anna" empty_world)) =
       (fst (add_face "anna" "Anna" empty_world),
        Returned ([MatchResult "Anna" (py_max 0 (100 - norm (sub anna anna) * 100))],
                  None)).
Proof.
  assert (valid_label "Anna") as Hv by demo_valid.
  assert (sees "anna" [square 20 anna]) as Hs by demo_sees.
  assert (new_face (self empty_world) anna) as Hnew by constructor.
  split; [exact Hv|]. split; [exact Hs|]. split; [exact Hnew|].
  exact (@enrolled_face_is_recognized externals "anna" "Anna" (square 20 anna)
           empty_world Hv Hs eq_refl Hnew eq_refl).
Defined.

(** X20, with the face at distance 0.69 of Anna. *)
Lemma matches_are_above_thirty_witness :
  consistent (self two_people)
  /\ exists r,
       snd (recognize_faces "anna-0.69" two_people) = Returned ([r], None)
       /\ name r = "Anna"
       /\ (30 < confidence r)%Q.
Proof.
  assert (consistent (self two_people)) as Hc by reflexivity.
  split; [exact Hc|].
  eexists. split; [reflexivity|]. split; [reflexivity|].
  pose proof (@matches_are_above_thirty externals "anna-0.69" two_people _ _ Hc eq_refl)
    as Hall.
  apply Forall_cons in Hall as [[_ Hconf] _]. exact Hconf.
Defined.

Example prompts_have_the_bytes_of_the_source :
  String.length DEFAULT_PROMPT = 1464%nat /\ String.length SAFETY_PROMPT = 746%nat.
Proof. by vm_compute. Qed.

Example lower_of_the_detection_texts :
  py_lower "Лиц не обнаружено" = "лиц не обнаружено"
  /\ py_lower "Обнаружено лиц: 3" = "обнаружено лиц: 3".
Proof. by vm_compute. Qed.

Example analyze_without_model :
  snd (analyze_image no_model "anna" "" two_people)
  = Returned "I remember this person! This is Anna. VLM модель не загружена".
Proof. reflexivity. Qed.

End DemoExtras.
